(** * spacetimedb-runes: the filtered-view engine of [TableQuery]

  A shallow embedding of the [TableQuery] module (the expression DSL, the
  membership classifier and the [TableQuery] class, in [src/lib/index.ts])
  and of the connection-status store [SpacetimeDB.status], followed by the
  properties of the specification, each settled against the embedding.

  Conventions.
  - JavaScript values are the inductive [jsval]; numbers are IEEE-754
    doubles (Rocq's primitive [float]), so that [===] on numbers is
    [PrimFloat.eqb]: [NaN] differs from itself and [+0] equals [-0].
  - A row is a JavaScript object read by property name: a finite map from
    property names to values, an absent property reading as [undefined].
  - The class is a record of its private fields; every call the class
    makes to a collaborator or to a user callback is appended to a log of
    [Effect]s, so that "how often was X called" is a count over the log. *)

From Stdlib Require Import Floats Ascii String List Bool Arith ZArith Lia.
From stdpp Require Import gmap strings list.
Import ListNotations.

Local Open Scope string_scope.

(** ** JavaScript values *)

Module JS.

(** The values a row column or [ctx.event] can hold.  [JObject],
    [JFunction] and [JSymbol] carry the identity of the reference: two of
    them are [===] exactly when they are the same reference. *)
Inductive jsval : Type :=
| JUndefined
| JNull
| JBool (b : bool)
| JNumber (x : float)
| JString (s : string)
| JBigInt (z : Z)
| JObject (ref : positive)
| JFunction (ref : positive)
| JSymbol (ref : positive).

(** [typeof v] *)
Definition typeof (v : jsval) : string :=
  match v with
  | JUndefined => "undefined"
  | JNull => "object"
  | JBool _ => "boolean"
  | JNumber _ => "number"
  | JString _ => "string"
  | JBigInt _ => "bigint"
  | JObject _ => "object"
  | JFunction _ => "function"
  | JSymbol _ => "symbol"
  end.

(** [a === b] (IsStrictlyEqual): values of different types are never
    equal; numbers compare as IEEE doubles. *)
Definition strict_equals (a b : jsval) : bool :=
  match a, b with
  | JUndefined, JUndefined => true
  | JNull, JNull => true
  | JBool x, JBool y => Bool.eqb x y
  | JNumber x, JNumber y => PrimFloat.eqb x y
  | JString x, JString y => String.eqb x y
  | JBigInt x, JBigInt y => Z.eqb x y
  | JObject x, JObject y => Pos.eqb x y
  | JFunction x, JFunction y => Pos.eqb x y
  | JSymbol x, JSymbol y => Pos.eqb x y
  | _, _ => false
  end.

(** ToBoolean: the falsy values are [undefined], [null], [false], [0],
    [-0], [NaN], the empty string and [0n]. *)
Definition truthy (v : jsval) : bool :=
  match v with
  | JUndefined | JNull => false
  | JBool b => b
  | JNumber x => negb (PrimFloat.is_zero x || PrimFloat.is_nan x)
  | JString s => negb (String.eqb s "")
  | JBigInt z => negb (Z.eqb z 0)
  | JObject _ | JFunction _ | JSymbol _ => true
  end.

(** [String.prototype.includes]: [sub] occurs somewhere in [s]. *)
Fixpoint includes (s sub : string) : bool :=
  String.prefix sub s
  || match s with
     | EmptyString => false
     | String _ rest => includes rest sub
     end.

(** [s.replace(/c/g, by)] for a one-character pattern. *)
Fixpoint replace_all (c : ascii) (by_ : string) (s : string) : string :=
  match s with
  | EmptyString => EmptyString
  | String a rest =>
      if Ascii.eqb a c then by_ +:+ replace_all c by_ rest
      else String a (replace_all c by_ rest)
  end.

(** [xs.join(sep)] *)
Fixpoint join (sep : string) (xs : list string) : string :=
  match xs with
  | [] => ""
  | [x] => x
  | x :: rest => x +:+ sep +:+ join sep rest
  end.

End JS.

(** ** The expression DSL *)

Module Dsl.
Import JS.

(** [type Value = string | number | boolean] *)
Inductive Value : Type :=
| VString (s : string)
| VNumber (x : float)
| VBoolean (b : bool).

Definition jsval_of (v : Value) : jsval :=
  match v with
  | VString s => JString s
  | VNumber x => JNumber x
  | VBoolean b => JBool b
  end.

(** [type Expr<Column>]: the tagged union with tags ['eq'], ['and'],
    ['or']. *)
#[warnings="-register-all"]
Inductive Expr : Type :=
| EEq (key : string) (value : Value)
| EAnd (children : list Expr)
| EOr (children : list Expr).

(** [Record<Column, unknown>]: a row object and the property read
    [row[key]].  A property the object does not carry reads as
    [undefined]; what it could inherit from [Object.prototype] are
    functions and objects, which [evaluate] treats like [undefined]. *)
Definition get (row : gmap string jsval) (key : string) : jsval :=
  default JUndefined (row !! key).

(** [const eq = (key, value) => ({ type: 'eq', key, value })] *)
Definition eq (key : string) (value : Value) : Expr := EEq key value.

(** [Boolean(e)] on an expression node: every object is truthy. *)
Definition Boolean (e : Expr) : bool := true.

(** The loop of [and]: an operand is [None] when the argument passed at
    run time is falsy ([if (!c) continue]); the children of an ['and']
    operand are spliced in, any other operand is pushed as it is. *)
Fixpoint and_flat (children : list (option Expr)) : list Expr :=
  match children with
  | [] => []
  | None :: rest => and_flat rest
  | Some (EAnd cs) :: rest => cs ++ and_flat rest
  | Some c :: rest => c :: and_flat rest
  end.

Definition and (children : list (option Expr)) : Expr :=
  let pruned := List.filter Boolean (and_flat children) in
  match pruned with
  | [] => EAnd []
  | [x] => x
  | _ => EAnd pruned
  end.

Fixpoint or_flat (children : list (option Expr)) : list Expr :=
  match children with
  | [] => []
  | None :: rest => or_flat rest
  | Some (EOr cs) :: rest => cs ++ or_flat rest
  | Some c :: rest => c :: or_flat rest
  end.

Definition or (children : list (option Expr)) : Expr :=
  let pruned := List.filter Boolean (or_flat children) in
  match pruned with
  | [] => EOr []
  | [x] => x
  | _ => EOr pruned
  end.

(** [function where(expr) { return expr; }] *)
Definition where_ (expr : Expr) : Expr := expr.

(** [function evaluate(expr, row): boolean] *)
Fixpoint evaluate (expr : Expr) (row : gmap string jsval) : bool :=
  match expr with
  | EEq key value =>
      let v := get row key in
      if String.eqb (typeof v) "string"
         || String.eqb (typeof v) "number"
         || String.eqb (typeof v) "boolean"
      then strict_equals v (jsval_of value)
      else false
  | EAnd children =>
      Nat.eqb (length children) 0
      || forallb (fun c => evaluate c row) children
  | EOr children =>
      negb (Nat.eqb (length children) 0)
      && existsb (fun c => evaluate c row) children
  end.

(** [type MembershipChange = 'enter' | 'leave' | 'stayIn' | 'stayOut'] *)
Inductive MembershipChange : Type := enter | leave | stayIn | stayOut.

(** [function classifyMembership(where, oldRow, newRow)] *)
Definition classifyMembership (where_clause : option Expr)
    (oldRow newRow : gmap string jsval) : MembershipChange :=
  match where_clause with
  | None => stayIn
  | Some w =>
      let oldIn := evaluate w oldRow in
      let newIn := evaluate w newRow in
      if oldIn && negb newIn then leave
      else if negb oldIn && newIn then enter
      else if oldIn && newIn then stayIn
      else stayOut
  end.

(** *** Rendering to query text *)

Definition quote_char : ascii := Ascii.ascii_of_nat 34.
Definition apostrophe : ascii := Ascii.ascii_of_nat 39.

Section Rendering.

(** [String(v)] on a number: the built-in Number::toString of the
    JavaScript engine, not part of the repository. *)
Variable String_of_number : float -> string.

(** [function formatValue(v: Value): string] *)
Definition formatValue (v : Value) : string :=
  match v with
  | VString s =>
      String apostrophe
        (replace_all apostrophe (String apostrophe (String apostrophe ""))  s
         +:+ String apostrophe "")
  | VNumber x =>
      if PrimFloat.is_finite x then String_of_number x
      else String apostrophe (String_of_number x +:+ String apostrophe "")
  | VBoolean b => if b then "TRUE" else "FALSE"
  end.

Definition in_range (lo hi : nat) (c : ascii) : bool :=
  Nat.leb lo (nat_of_ascii c) && Nat.leb (nat_of_ascii c) hi.

(** [[A-Za-z_]] and [[A-Za-z0-9_]] *)
Definition ident_start (c : ascii) : bool :=
  in_range 65 90 c || in_range 97 122 c || Nat.eqb (nat_of_ascii c) 95.

Definition ident_char (c : ascii) : bool :=
  ident_start c || in_range 48 57 c.

Fixpoint all_chars (p : ascii -> bool) (s : string) : bool :=
  match s with
  | EmptyString => true
  | String c rest => p c && all_chars p rest
  end.

(** [/^[A-Za-z_][A-Za-z0-9_]*$/.test(id)] *)
Definition is_plain_ident (id : string) : bool :=
  match id with
  | EmptyString => false
  | String c rest => ident_start c && all_chars ident_char rest
  end.

(** [function escapeIdent(id: string): string] *)
Definition escapeIdent (id : string) : string :=
  if is_plain_ident id then id
  else String quote_char
         (replace_all quote_char (String quote_char (String quote_char "")) id
          +:+ String quote_char "").

(** [function parenthesize(s: string): string] *)
Definition parenthesize (s : string) : string :=
  if negb (includes s " AND ") && negb (includes s " OR ") then s
  else "(" +:+ s +:+ ")".

(** [function toString(expr): string] *)
Fixpoint toString (expr : Expr) : string :=
  match expr with
  | EEq key value => escapeIdent key +:+ " = " +:+ formatValue value
  | EAnd children => parenthesize (join " AND " (List.map toString children))
  | EOr children => parenthesize (join " OR " (List.map toString children))
  end.

End Rendering.

End Dsl.

(** ** The connection-status store and the [TableQuery] class *)

Module Engine.
Import JS Dsl.

Abbreviation Row := (gmap string jsval).

(** The values of the store [SpacetimeDB.status]. *)
Inductive Status : Type := disconnected | connecting | connected | error.

Definition Status_eqb (a b : Status) : bool :=
  match a, b with
  | disconnected, disconnected | connecting, connecting
  | connected, connected | error, error => true
  | _, _ => false
  end.

(** [UseQueryCallbacks]: which of the four optional callbacks the caller
    supplied.  A callback is an arbitrary user function; calling it is
    recorded in the log, and it is taken to return normally. *)
Record UseQueryCallbacks : Type := mkCallbacks {
  has_onInsert : bool;
  has_onDelete : bool;
  has_onUpdate : bool;
  has_onInitialSnapshot : bool
}.

(** The closures pushed on [#tableUnSubscribers].  [l] names the listener
    closures created by the [l]-th run of [#setupTableListeners]. *)
Inductive Cleanup : Type :=
| UnsubscribeStatus
| RemoveOnInsert (l : nat)
| RemoveOnDelete (l : nat)
| RemoveOnUpdate (l : nat).

Definition is_UnsubscribeStatus (c : Cleanup) : bool :=
  match c with UnsubscribeStatus => true | _ => false end.

(** Every call that leaves the class: to the subscription builder, to the
    handle it returned, to the status store, to the table cache, to a user
    callback; and every assignment to the reactive [#rows]. *)
Inductive Effect : Type :=
| SubscribeCall (query : string)
| CancelUnsubscribe (h : nat)
| StatusUnsubscribe
| TableOnInsert (l : nat)
| TableOnDelete (l : nat)
| TableOnUpdate (l : nat)
| TableRemoveOnInsert (l : nat)
| TableRemoveOnDelete (l : nat)
| TableRemoveOnUpdate (l : nat)
| UserOnInsert (row : Row)
| UserOnDelete (row : Row)
| UserOnUpdate (oldRow newRow : Row)
| UserOnInitialSnapshot (snapshot : list Row)
| RowsPublished (snapshot : list Row).

(** The private fields of one [TableQuery] instance, the closure variable
    [unsubscribeStatus] of its constructor, and the state of the
    collaborators it talks to. *)
Record State : Type := mkState {
  (* fixed by the constructor *)
  tableName : string;
  whereClause : option Expr;
  callbacks : option UseQueryCallbacks;
  query : string;
  (* reactive fields *)
  rows : list Row;
  subscribeApplied : bool;
  (* non-reactive fields *)
  initialSnapshotCalled : bool;      (* the flag kept by [once(...)] *)
  latestTransactionEvent : jsval;
  unsubscribe : option nat;          (* [null], or the closure over handle [h] *)
  tableUnSubscribers : list Cleanup;
  unsubscribeStatus : bool;          (* [false] while still [undefined] *)
  (* the store [SpacetimeDB.status] *)
  status : Status;
  statusListener : bool;             (* is [handleStatusChange] subscribed *)
  (* the connection and its table cache *)
  isActive : bool;
  tableHasOnUpdate : bool;           (* does the table offer [onUpdate] *)
  subscriptions : nat;               (* handles issued so far *)
  liveSubscriptions : list nat;
  insertListeners : list nat;
  deleteListeners : list nat;
  updateListeners : list nat;
  listenersCreated : nat;
  (* what has been called so far, oldest first *)
  log : list Effect
}.

Definition set_rows (x : list Row) (s : State) : State :=
  let '(mkState a b c d _ f g h i j k l m n o p q r t u v w) := s in
  mkState a b c d x f g h i j k l m n o p q r t u v w.
Definition set_subscribeApplied (x : bool) (s : State) : State :=
  let '(mkState a b c d e _ g h i j k l m n o p q r t u v w) := s in
  mkState a b c d e x g h i j k l m n o p q r t u v w.
Definition set_initialSnapshotCalled (x : bool) (s : State) : State :=
  let '(mkState a b c d e f _ h i j k l m n o p q r t u v w) := s in
  mkState a b c d e f x h i j k l m n o p q r t u v w.
Definition set_latestTransactionEvent (x : jsval) (s : State) : State :=
  let '(mkState a b c d e f g _ i j k l m n o p q r t u v w) := s in
  mkState a b c d e f g x i j k l m n o p q r t u v w.
Definition set_unsubscribe (x : option nat) (s : State) : State :=
  let '(mkState a b c d e f g h _ j k l m n o p q r t u v w) := s in
  mkState a b c d e f g h x j k l m n o p q r t u v w.
Definition set_tableUnSubscribers (x : list Cleanup) (s : State) : State :=
  let '(mkState a b c d e f g h i _ k l m n o p q r t u v w) := s in
  mkState a b c d e f g h i x k l m n o p q r t u v w.
Definition set_unsubscribeStatus (x : bool) (s : State) : State :=
  let '(mkState a b c d e f g h i j _ l m n o p q r t u v w) := s in
  mkState a b c d e f g h i j x l m n o p q r t u v w.
Definition set_status (x : Status) (s : State) : State :=
  let '(mkState a b c d e f g h i j k _ m n o p q r t u v w) := s in
  mkState a b c d e f g h i j k x m n o p q r t u v w.
Definition set_statusListener (x : bool) (s : State) : State :=
  let '(mkState a b c d e f g h i j k l _ n o p q r t u v w) := s in
  mkState a b c d e f g h i j k l x n o p q r t u v w.
Definition set_isActive (x : bool) (s : State) : State :=
  let '(mkState a b c d e f g h i j k l m _ o p q r t u v w) := s in
  mkState a b c d e f g h i j k l m x o p q r t u v w.
Definition set_subscriptions (x : nat) (s : State) : State :=
  let '(mkState a b c d e f g h i j k l m n o _ q r t u v w) := s in
  mkState a b c d e f g h i j k l m n o x q r t u v w.
Definition set_liveSubscriptions (x : list nat) (s : State) : State :=
  let '(mkState a b c d e f g h i j k l m n o p _ r t u v w) := s in
  mkState a b c d e f g h i j k l m n o p x r t u v w.
Definition set_insertListeners (x : list nat) (s : State) : State :=
  let '(mkState a b c d e f g h i j k l m n o p q _ t u v w) := s in
  mkState a b c d e f g h i j k l m n o p q x t u v w.
Definition set_deleteListeners (x : list nat) (s : State) : State :=
  let '(mkState a b c d e f g h i j k l m n o p q r _ u v w) := s in
  mkState a b c d e f g h i j k l m n o p q r x u v w.
Definition set_updateListeners (x : list nat) (s : State) : State :=
  let '(mkState a b c d e f g h i j k l m n o p q r t _ v w) := s in
  mkState a b c d e f g h i j k l m n o p q r t x v w.
Definition set_listenersCreated (x : nat) (s : State) : State :=
  let '(mkState a b c d e f g h i j k l m n o p q r t u _ w) := s in
  mkState a b c d e f g h i j k l m n o p q r t u x w.

(** Record one call at the end of the log. *)
Definition emit (e : Effect) (s : State) : State :=
  let '(mkState a b c d e0 f g h i j k l m n o p q r t u v w) := s in
  mkState a b c d e0 f g h i j k l m n o p q r t u v (w ++ [e]).

(** [xs.filter(x => x !== y)] on handle and listener names. *)
Definition without (y : nat) (xs : list nat) : list nat :=
  List.filter (fun x => negb (Nat.eqb x y)) xs.

(** *** Calls to the user's callbacks *)

(** [this.#callbacks?.onInsert?.(row)] *)
Definition call_onInsert (row : Row) (s : State) : State :=
  match callbacks s with
  | Some cb => if has_onInsert cb then emit (UserOnInsert row) s else s
  | None => s
  end.

(** [this.#callbacks?.onDelete?.(row)] *)
Definition call_onDelete (row : Row) (s : State) : State :=
  match callbacks s with
  | Some cb => if has_onDelete cb then emit (UserOnDelete row) s else s
  | None => s
  end.

(** [this.#callbacks?.onUpdate?.(oldRow, newRow)] *)
Definition call_onUpdate (oldRow newRow : Row) (s : State) : State :=
  match callbacks s with
  | Some cb =>
      if has_onUpdate cb then emit (UserOnUpdate oldRow newRow) s else s
  | None => s
  end.

(** [this.#initialSnapshotHandler?.(rows)].  The constructor sets the
    handler to [once(callbacks.onInitialSnapshot)] when that callback was
    supplied, and to [() => void 0] otherwise; [once] sets its flag and
    then calls the function, on the first call only. *)
Definition initialSnapshotHandler (snapshot : list Row) (s : State) : State :=
  match callbacks s with
  | Some cb =>
      if has_onInitialSnapshot cb then
        if initialSnapshotCalled s then s
        else emit (UserOnInitialSnapshot snapshot)
               (set_initialSnapshotCalled true s)
      else s
  | None => s
  end.

(** *** Snapshots *)

(** [#computeSnapshot()]; [cache] is what [table.iter()] yields when it is
    called. *)
Definition computeSnapshot (cache : list Row) (s : State) : list Row :=
  match whereClause s with
  | Some w => List.filter (fun row => evaluate w row) cache
  | None => cache
  end.

(** [#updateSnapshot()] *)
Definition updateSnapshot (cache : list Row) (s : State) : State :=
  let snapshot := computeSnapshot cache s in
  let s := emit (RowsPublished snapshot) (set_rows snapshot s) in
  initialSnapshotHandler (rows s) s.

(** *** Subscription set-up *)

(** [#setupTableListeners()] *)
Definition setupTableListeners (s : State) : State :=
  let l := listenersCreated s in
  let s := set_listenersCreated (S l) s in
  let s := emit (TableOnInsert l)
             (set_insertListeners (insertListeners s ++ [l]) s) in
  let s := emit (TableOnDelete l)
             (set_deleteListeners (deleteListeners s ++ [l]) s) in
  let s := if tableHasOnUpdate s
           then emit (TableOnUpdate l)
                  (set_updateListeners (updateListeners s ++ [l]) s)
           else s in
  set_tableUnSubscribers
    (tableUnSubscribers s
       ++ [RemoveOnInsert l; RemoveOnDelete l; RemoveOnUpdate l]) s.

(** [#setupSubscription()] *)
Definition setupSubscription (s : State) : State :=
  if negb (isActive s) then s
  else
    let h := subscriptions s in
    let s := emit (SubscribeCall (query s)) s in
    let s := set_liveSubscriptions (liveSubscriptions s ++ [h])
               (set_subscriptions (S h) s) in
    let s := set_unsubscribe (Some h) s in
    setupTableListeners s.

(** Calling the function [status.subscribe] returned: the store drops the
    subscriber. *)
Definition call_unsubscribeStatus (s : State) : State :=
  emit StatusUnsubscribe (set_statusListener false s).

(** [handleStatusChange(status)], the closure of the constructor. *)
Definition handleStatusChange (st : Status) (s : State) : State :=
  if negb (Status_eqb st connected) then s
  else
    let s := setupSubscription s in
    let s := if unsubscribeStatus s
             then set_tableUnSubscribers
                    (List.filter (fun fn => negb (is_UnsubscribeStatus fn))
                       (tableUnSubscribers s))
                    (call_unsubscribeStatus s)
             else s in
    if unsubscribeStatus s then call_unsubscribeStatus s else s.

Section Constructor.

Variable String_of_number : float -> string.

(** [new TableQuery(tableName, whereClause, callbacks)], in a world where
    the status store holds [st], the connection's [isActive] is [active]
    and the table offers [onUpdate] or not.  [whereClause] is the
    expression the caller's builder callback returned, if one was given.
    [status.subscribe(run)] of a Svelte [writable] adds the subscriber,
    calls [run] with the current value at once, and only then returns the
    unsubscriber that the constructor stores in [unsubscribeStatus]. *)
Definition construct (tableName : string) (whereClause : option Expr)
    (callbacks : option UseQueryCallbacks)
    (st : Status) (active hasOnUpdate : bool) : State :=
  let query :=
    "SELECT * FROM " +:+ tableName
    +:+ match whereClause with
        | Some w => " WHERE " +:+ toString String_of_number w
        | None => ""
        end in
  let s := mkState tableName whereClause callbacks query
             [] false false JNull None [] false
             st false active hasOnUpdate 0 [] [] [] [] 0 [] in
  let s := handleStatusChange st (set_statusListener true s) in
  let s := set_unsubscribeStatus true s in
  set_tableUnSubscribers (tableUnSubscribers s ++ [UnsubscribeStatus]) s.

End Constructor.

(** [get state()] *)
Inductive LifecyclePhase : Type := loading | ready.

Definition state (s : State) : LifecyclePhase :=
  if subscribeApplied s then ready else loading.

(** *** The table listeners *)

(** The tail shared by the three listeners:
    [if (ctx.event !== this.#latestTransactionEvent ||
         !this.#latestTransactionEvent) { ... }] *)
Definition refreshPerTransaction (event : jsval) (cache : list Row)
    (s : State) : State :=
  if negb (strict_equals event (latestTransactionEvent s))
     || negb (truthy (latestTransactionEvent s))
  then updateSnapshot cache (set_latestTransactionEvent event s)
  else s.

(** [this.#whereClause && !evaluate(this.#whereClause, row)] *)
Definition filteredOut (row : Row) (s : State) : bool :=
  match whereClause s with
  | Some w => negb (evaluate w row)
  | None => false
  end.

(** [onInsert(ctx, row)], [event] being [ctx.event]. *)
Definition onInsert (event : jsval) (row : Row) (cache : list Row)
    (s : State) : State :=
  if filteredOut row s then s
  else refreshPerTransaction event cache (call_onInsert row s).

(** [onDelete(ctx, row)] *)
Definition onDelete (event : jsval) (row : Row) (cache : list Row)
    (s : State) : State :=
  if filteredOut row s then s
  else refreshPerTransaction event cache (call_onDelete row s).

(** [onUpdate(ctx, oldRow, newRow)] *)
Definition onUpdate (event : jsval) (oldRow newRow : Row) (cache : list Row)
    (s : State) : State :=
  match classifyMembership (whereClause s) oldRow newRow with
  | leave => refreshPerTransaction event cache (call_onDelete oldRow s)
  | enter => refreshPerTransaction event cache (call_onInsert newRow s)
  | stayIn =>
      refreshPerTransaction event cache (call_onUpdate oldRow newRow s)
  | stayOut => s
  end.

(** *** Disposal *)

Definition run_cleanup (c : Cleanup) (s : State) : State :=
  match c with
  | UnsubscribeStatus => call_unsubscribeStatus s
  | RemoveOnInsert l =>
      emit (TableRemoveOnInsert l)
        (set_insertListeners (without l (insertListeners s)) s)
  | RemoveOnDelete l =>
      emit (TableRemoveOnDelete l)
        (set_deleteListeners (without l (deleteListeners s)) s)
  | RemoveOnUpdate l =>
      if tableHasOnUpdate s
      then emit (TableRemoveOnUpdate l)
             (set_updateListeners (without l (updateListeners s)) s)
      else s
  end.

(** [destroy()] *)
Definition destroy (s : State) : State :=
  let s := match unsubscribe s with
           | Some h =>
               emit (CancelUnsubscribe h)
                 (set_liveSubscriptions (without h (liveSubscriptions s)) s)
           | None => s
           end in
  let s := fold_left (fun s c => run_cleanup c s) (tableUnSubscribers s) s in
  set_tableUnSubscribers [] s.

(** *** What the collaborators and the caller can do to an instance *)

(** A raw row event of the table cache, with [ctx.event] and with what
    [table.iter()] yields while the event is delivered. *)
Inductive RawEvent : Type :=
| RawInsert (event : jsval) (row : Row) (cache : list Row)
| RawDelete (event : jsval) (row : Row) (cache : list Row)
| RawUpdate (event : jsval) (oldRow newRow : Row) (cache : list Row).

Definition transactionOf (e : RawEvent) : jsval :=
  match e with
  | RawInsert ev _ _ | RawDelete ev _ _ | RawUpdate ev _ _ _ => ev
  end.

(** One run of the matching listener. *)
Definition deliver (e : RawEvent) (s : State) : State :=
  match e with
  | RawInsert ev row cache => onInsert ev row cache s
  | RawDelete ev row cache => onDelete ev row cache s
  | RawUpdate ev o n cache => onUpdate ev o n cache s
  end.

(** The listener runs of a sequence of events, in the order delivered. *)
Definition deliverAll (es : list RawEvent) (s : State) : State :=
  fold_left (fun s e => deliver e s) es s.

Definition cacheOf (e : RawEvent) : list Row :=
  match e with
  | RawInsert _ _ cache | RawDelete _ _ cache | RawUpdate _ _ _ cache => cache
  end.

(** Does the event get past the filter, to the callback dispatch and the
    transaction test?  An insert or delete does unless its row fails the
    predicate, an update unless it is classified [stayOut]. *)
Definition reachesDispatch (e : RawEvent) (s : State) : bool :=
  match e with
  | RawInsert _ row _ | RawDelete _ row _ => negb (filteredOut row s)
  | RawUpdate _ o n _ =>
      match classifyMembership (whereClause s) o n with
      | stayOut => false
      | _ => true
      end
  end.

(** The listeners currently registered on the table for this event. *)
Definition listenersFor (e : RawEvent) (s : State) : list nat :=
  match e with
  | RawInsert _ _ _ => insertListeners s
  | RawDelete _ _ _ => deleteListeners s
  | RawUpdate _ _ _ _ => updateListeners s
  end.

Inductive Input : Type :=
| StatusSet (st : Status)                (* [SpacetimeDB.status.set(st)] *)
| ConnectionActive (active : bool)       (* [client.isActive] changes *)
| Applied (h : nat) (cache : list Row)   (* the [onApplied] callback of handle [h] *)
| TableEvent (e : RawEvent)              (* the cache emits a row event *)
| Destroy.                               (* the caller runs [destroy()] *)

Definition step (i : Input) (s : State) : State :=
  match i with
  | StatusSet st =>
      (* a [writable] notifies its subscribers when the value changes *)
      if Status_eqb st (status s) then s
      else
        let s := set_status st s in
        if statusListener s then handleStatusChange st s else s
  | ConnectionActive active => set_isActive active s
  | Applied h cache =>
      if existsb (Nat.eqb h) (liveSubscriptions s)
      then updateSnapshot cache (set_subscribeApplied true s)
      else s
  | TableEvent e =>
      fold_left (fun s _ => deliver e s) (listenersFor e s) s
  | Destroy => destroy s
  end.

Definition run (inputs : list Input) (s : State) : State :=
  fold_left (fun s i => step i s) inputs s.

(** *** Counting calls in the log *)

Definition count (p : Effect -> bool) (l : list Effect) : nat :=
  length (List.filter p l).

Definition is_SubscribeCall (e : Effect) : bool :=
  match e with SubscribeCall _ => true | _ => false end.

Definition is_RowsPublished (e : Effect) : bool :=
  match e with RowsPublished _ => true | _ => false end.

Definition is_UserOnInitialSnapshot (e : Effect) : bool :=
  match e with UserOnInitialSnapshot _ => true | _ => false end.

Definition is_CancelUnsubscribe (e : Effect) : bool :=
  match e with CancelUnsubscribe _ => true | _ => false end.

(** How often the materialized set was recomputed and republished. *)
Definition published (s : State) : nat := count is_RowsPublished (log s).

(** How often the subscribe call was issued. *)
Definition subscribed (s : State) : nat := count is_SubscribeCall (log s).

(** How often the initial-snapshot callback was called. *)
Definition snapshotsFired (s : State) : nat :=
  count is_UserOnInitialSnapshot (log s).

End Engine.

(** ** Vocabulary of the specification *)

Module Spec.
Import JS Dsl.

(** "The row's value is a string, number, or boolean strictly equal (same
    type and same value) to the literal": the same kind of scalar on both
    sides and the same value, numbers being equal as IEEE doubles. *)
Definition scalar_equal (v : jsval) (literal : Value) : Prop :=
  match v, literal with
  | JString a, VString b => a = b
  | JBool a, VBoolean b => a = b
  | JNumber x, VNumber y => PrimFloat.eqb x y = true
  | _, _ => False
  end.

(** "A scalar of type string/number/boolean". *)
Definition scalar (v : jsval) : Prop :=
  match v with
  | JString _ | JNumber _ | JBool _ => True
  | _ => False
  end.

(** An expression "built from eq/and/or": what the builders return when
    their operands, where present, were built the same way. *)
Inductive built : Expr -> Prop :=
| built_eq key value : built (eq key value)
| built_and operands :
    (forall x, In (Some x) operands -> built x) -> built (and operands)
| built_or operands :
    (forall x, In (Some x) operands -> built x) -> built (or operands).

(** No AND/OR node of the expression has exactly one child. *)
Fixpoint collapsed (e : Expr) : bool :=
  match e with
  | EEq _ _ => true
  | EAnd cs | EOr cs => negb (Nat.eqb (length cs) 1) && forallb collapsed cs
  end.

(** What one operand contributes to an AND (resp. OR) call: nothing when
    it is falsy, its children when it is itself an AND (resp. OR) node,
    itself otherwise. *)
Definition and_operand (o : option Expr) : list Expr :=
  match o with
  | None => []
  | Some (EAnd cs) => cs
  | Some c => [c]
  end.

Definition or_operand (o : option Expr) : list Expr :=
  match o with
  | None => []
  | Some (EOr cs) => cs
  | Some c => [c]
  end.

(** The number of nodes of an expression. *)
Fixpoint nodes (e : Expr) : nat :=
  match e with
  | EEq _ _ => 1
  | EAnd cs | EOr cs => S (list_sum (List.map nodes cs))
  end.

(** The text of a node before [parenthesize] is applied to it: the
    rendered children joined by the operator; for a leaf, its rendering. *)
Definition joined (String_of_number : float -> string) (e : Expr) : string :=
  match e with
  | EEq key value =>
      escapeIdent key +:+ " = " +:+ formatValue String_of_number value
  | EAnd cs => join " AND " (List.map (toString String_of_number) cs)
  | EOr cs => join " OR " (List.map (toString String_of_number) cs)
  end.

Definition is_node (e : Expr) : bool :=
  match e with EEq _ _ => false | _ => true end.

(** Zero survivors give the empty node, one survivor is returned as it is,
    more become the children of a new node. *)
Definition collapse (node : list Expr -> Expr) (survivors : list Expr) : Expr :=
  match survivors with
  | [] => node []
  | [x] => x
  | _ => node survivors
  end.

(** [s'] differs from [s] by calls to user callbacks at most: the same
    predicate and callbacks, the same last-seen transaction, no further
    recomputation. *)
Definition only_notified (s s' : Engine.State) : Prop :=
  Engine.whereClause s' = Engine.whereClause s
  /\ Engine.callbacks s' = Engine.callbacks s
  /\ Engine.latestTransactionEvent s' = Engine.latestTransactionEvent s
  /\ Engine.published s' = Engine.published s.

(** [s'] was reached from [s] without a subscribe call and without
    touching the constructor's [unsubscribeStatus]; the status listener,
    once dropped, stays dropped. *)
Definition no_subscribe (s s' : Engine.State) : Prop :=
  Engine.subscribed s' = Engine.subscribed s
  /\ Engine.unsubscribeStatus s' = Engine.unsubscribeStatus s
  /\ (Engine.statusListener s = false -> Engine.statusListener s' = false).

(** [s'] was reached from [s] without a call of the initial-snapshot
    handler. *)
Definition no_snapshot (s s' : Engine.State) : Prop :=
  Engine.snapshotsFired s' = Engine.snapshotsFired s
  /\ Engine.initialSnapshotCalled s' = Engine.initialSnapshotCalled s
  /\ Engine.callbacks s' = Engine.callbacks s.

(** The state of a view that was constructed before the connection came
    up: either it has not subscribed and its handler can still deregister
    itself, or it has subscribed once and the handler is gone. *)
Definition subscribes_once (s : Engine.State) : Prop :=
  (Engine.subscribed s = 0 /\ Engine.unsubscribeStatus s = true)
  \/ (Engine.subscribed s <= 1 /\ Engine.statusListener s = false).

(** The initial-snapshot callback was called at most once, and not at all
    while the flag of [once] is down. *)
Definition snapshot_once (s : Engine.State) : Prop :=
  (Engine.initialSnapshotCalled s = false -> Engine.snapshotsFired s = 0)
  /\ Engine.snapshotsFired s <= 1.

(** The test of the listeners' tail: does an event carrying [event]
    recompute in a state whose last-seen transaction is [latest]? *)
Definition recomputes (event latest : jsval) : bool :=
  negb (strict_equals event latest) || negb (truthy latest).

End Spec.

(** ** Concrete inputs used by the examples *)

Module Examples.
Import JS Dsl Engine.

(** Stands in for [String(v)] where no number literal is rendered. *)
Definition no_number_rendered : float -> string := fun _ => "".

(** [and(eq('role','admin'), or(eq('dept','Eng'), eq('dept','Product')))] *)
Definition admin_in_eng_or_product : Expr :=
  and [Some (eq "role" (VString "admin"));
       Some (or [Some (eq "dept" (VString "Eng"));
                 Some (eq "dept" (VString "Product"))])].

(** [{ type: 'and', children: [eq('isActive', true)] }], written out as an
    object rather than obtained from a builder. *)
Definition singleton_and : Expr := EAnd [eq "isActive" (VBoolean true)].

Definition is_active : Expr := eq "isActive" (VBoolean true).

Definition alice : Row :=
  {[ "id" := JNumber 1%float; "isActive" := JBool true ]}.
Definition bob : Row :=
  {[ "id" := JNumber 2%float; "isActive" := JBool true ]}.
Definition carol_inactive : Row :=
  {[ "id" := JNumber 3%float; "isActive" := JBool false ]}.

Definition all_callbacks : option UseQueryCallbacks :=
  Some (mkCallbacks true true true true).

(** [new TableQuery('User', undefined, callbacks)] built while the status
    store already holds ['connected'] and the connection is active. *)
Definition view_built_connected : State :=
  construct no_number_rendered "User" None all_callbacks connected true true.

(** The same view built while the store holds ['disconnected']. *)
Definition view_built_disconnected : State :=
  construct no_number_rendered "User" None all_callbacks disconnected true true.

(** [new TableQuery('User', ({where, eq}) => where(eq('isActive', true)),
    callbacks)], built connected. *)
Definition active_users_view : State :=
  construct no_number_rendered "User" (Some (where_ is_active)) all_callbacks
    connected true true.

(** A transaction event: an object, compared by reference. *)
Definition tx1 : jsval := JObject 1.

(** Three raw events of one upstream transaction, all past the filter of
    an unfiltered view. *)
Definition three_events_of (event : jsval) : list RawEvent :=
  [RawInsert event alice [alice; bob];
   RawInsert event bob [alice; bob];
   RawUpdate event carol_inactive alice [alice; bob]].

(** A row event delivered after the subscribe call and before the
    subscription is applied, then the applied callback. *)
Definition early_insert : Input := TableEvent (RawInsert tx1 alice [alice]).
Definition then_applied : Input := Applied 0 [alice; bob].

(** The status store goes down and comes back. *)
Definition reconnect : list Input := [StatusSet disconnected; StatusSet connected].

End Examples.

(** ** Vocabulary of the further properties *)

Module Laws.
Import JS Dsl Engine Spec.

(** The columns an expression reads: the keys of its leaves. *)
Fixpoint columns (e : Expr) : list string :=
  match e with
  | EEq key _ => [key]
  | EAnd cs | EOr cs => flat_map columns cs
  end.

Definition is_and (e : Expr) : bool :=
  match e with EAnd _ => true | _ => false end.

Definition is_or (e : Expr) : bool :=
  match e with EOr _ => true | _ => false end.

(** The data-model invariant of expressions: no AND node directly holds an
    AND node, no OR node an OR node, and no node has exactly one child. *)
Fixpoint normal (e : Expr) : bool :=
  match e with
  | EEq _ _ => true
  | EAnd cs =>
      negb (Nat.eqb (length cs) 1)
      && forallb (fun c => negb (is_and c)) cs && forallb normal cs
  | EOr cs =>
      negb (Nat.eqb (length cs) 1)
      && forallb (fun c => negb (is_or c)) cs && forallb normal cs
  end.

(** The truth value an operand of a builder call stands for: its own when
    it is present, [absent] when it is falsy. *)
Definition operand_value (row : gmap string jsval) (absent : bool)
    (o : option Expr) : bool :=
  match o with
  | Some x => evaluate x row
  | None => absent
  end.

(** Reading a quoted text back, after its opening delimiter [c]: a doubled
    [c] stands for one [c], a single [c] must be the last character. *)
Fixpoint read_quoted_body (c : ascii) (s : string) : option string :=
  match s with
  | EmptyString => None
  | String a rest =>
      if Ascii.eqb a c then
        match rest with
        | EmptyString => Some EmptyString
        | String b rest' =>
            if Ascii.eqb b c
            then option_map (String c) (read_quoted_body c rest')
            else None
        end
      else option_map (String a) (read_quoted_body c rest)
  end.

Definition read_quoted (c : ascii) (s : string) : option string :=
  match s with
  | EmptyString => None
  | String a rest => if Ascii.eqb a c then read_quoted_body c rest else None
  end.

(** Reading a single-quoted string literal of the query text. *)
Definition read_string_literal (s : string) : option string :=
  read_quoted apostrophe s.

(** Reading an identifier of the query text: bare, or double-quoted. *)
Definition read_ident (s : string) : option string :=
  if is_plain_ident s then Some s else read_quoted quote_char s.

(** *** The view engine *)

(** Does the row belong to the view: it satisfies the predicate, or there
    is none. *)
Definition passes (s : State) (row : Row) : bool :=
  match whereClause s with
  | Some w => evaluate w row
  | None => true
  end.

(** Did the caller supply the callback that [pick] selects? *)
Definition registered (pick : UseQueryCallbacks -> bool) (s : State) : bool :=
  match callbacks s with
  | Some cb => pick cb
  | None => false
  end.

(** The derived notification of a raw event: which user callback a
    listener run calls, by the membership of the rows involved. *)
Definition notification (e : RawEvent) (s : State) : list Effect :=
  match e with
  | RawInsert _ row _ =>
      if passes s row && registered has_onInsert s
      then [UserOnInsert row] else []
  | RawDelete _ row _ =>
      if passes s row && registered has_onDelete s
      then [UserOnDelete row] else []
  | RawUpdate _ o n _ =>
      match passes s o, passes s n with
      | true, true =>
          if registered has_onUpdate s then [UserOnUpdate o n] else []
      | true, false =>
          if registered has_onDelete s then [UserOnDelete o] else []
      | false, true =>
          if registered has_onInsert s then [UserOnInsert n] else []
      | false, false => []
      end
  end.

(** The recomputation that follows the notification, if any: the rows of
    the cache that belong to the view are published, and handed to the
    initial-snapshot callback if it is still pending. *)
Definition refreshed (e : RawEvent) (s : State) : list Effect :=
  if reachesDispatch e s
     && recomputes (transactionOf e) (latestTransactionEvent s)
  then
    let snapshot := List.filter (passes s) (cacheOf e) in
    RowsPublished snapshot
      :: (if registered has_onInitialSnapshot s
             && negb (initialSnapshotCalled s)
          then [UserOnInitialSnapshot snapshot] else [])
  else [].

(** Calls that reach the caller: the four callbacks and the publication
    of [rows]. *)
Definition is_user_effect (e : Effect) : bool :=
  match e with
  | UserOnInsert _ | UserOnDelete _ | UserOnUpdate _ _
  | UserOnInitialSnapshot _ | RowsPublished _ => true
  | _ => false
  end.

(** Calls that take a registration back. *)
Definition is_teardown_effect (e : Effect) : bool :=
  match e with
  | CancelUnsubscribe _ | StatusUnsubscribe
  | TableRemoveOnInsert _ | TableRemoveOnDelete _ | TableRemoveOnUpdate _ =>
      true
  | _ => false
  end.

(** Calls made when the status becomes ['connected']: the subscribe call
    with the query [q], the registration of table listeners, and the
    deregistration of the status listener. *)
Definition is_setup_effect (q : string) (e : Effect) : Prop :=
  match e with
  | SubscribeCall q' => q' = q
  | TableOnInsert _ | TableOnDelete _ | TableOnUpdate _
  | StatusUnsubscribe => True
  | _ => False
  end.

(** The calls an input can cause on a view whose query is [q]. *)
Definition caused_by (i : Input) (q : string) (e : Effect) : Prop :=
  match i with
  | StatusSet _ => is_setup_effect q e
  | ConnectionActive _ => False
  | Applied _ _ | TableEvent _ => is_user_effect e = true
  | Destroy => is_teardown_effect e = true
  end.

(** What the constructor fixes. *)
Definition same_config (s s' : State) : Prop :=
  tableName s' = tableName s
  /\ whereClause s' = whereClause s
  /\ callbacks s' = callbacks s
  /\ query s' = query s
  /\ tableHasOnUpdate s' = tableHasOnUpdate s.

(** Everything about subscriptions, listeners and the connection. *)
Definition same_wiring (s s' : State) : Prop :=
  subscribeApplied s' = subscribeApplied s
  /\ unsubscribe s' = unsubscribe s
  /\ tableUnSubscribers s' = tableUnSubscribers s
  /\ unsubscribeStatus s' = unsubscribeStatus s
  /\ status s' = status s
  /\ statusListener s' = statusListener s
  /\ isActive s' = isActive s
  /\ subscriptions s' = subscriptions s
  /\ liveSubscriptions s' = liveSubscriptions s
  /\ insertListeners s' = insertListeners s
  /\ deleteListeners s' = deleteListeners s
  /\ updateListeners s' = updateListeners s
  /\ listenersCreated s' = listenersCreated s.

(** The rows, the lifecycle phase, the flag of the initial-snapshot
    callback and the last-seen transaction. *)
Definition same_data (s s' : State) : Prop :=
  rows s' = rows s
  /\ subscribeApplied s' = subscribeApplied s
  /\ initialSnapshotCalled s' = initialSnapshotCalled s
  /\ latestTransactionEvent s' = latestTransactionEvent s.

(** What no deregistration touches. *)
Definition same_connection (s s' : State) : Prop :=
  isActive s' = isActive s
  /\ status s' = status s
  /\ subscriptions s' = subscriptions s
  /\ unsubscribe s' = unsubscribe s
  /\ unsubscribeStatus s' = unsubscribeStatus s
  /\ listenersCreated s' = listenersCreated s.

(** Every published row belongs to the view. *)
Definition rows_match (s : State) : Prop :=
  Forall (fun row => passes s row = true) (rows s).

(** Every listener the view has on the table, and its status listener,
    has its deregistration waiting in [#tableUnSubscribers]. *)
Definition wired (s : State) : Prop :=
  unsubscribeStatus s = true
  /\ (statusListener s = true -> In UnsubscribeStatus (tableUnSubscribers s))
  /\ (forall l, In l (insertListeners s) ->
                In (RemoveOnInsert l) (tableUnSubscribers s))
  /\ (forall l, In l (deleteListeners s) ->
                In (RemoveOnDelete l) (tableUnSubscribers s))
  /\ (forall l, In l (updateListeners s) ->
                In (RemoveOnUpdate l) (tableUnSubscribers s)
                /\ tableHasOnUpdate s = true).

(** Nothing of the view is registered with the status store or the
    table. *)
Definition unhooked (s : State) : Prop :=
  statusListener s = false
  /\ tableUnSubscribers s = []
  /\ insertListeners s = []
  /\ deleteListeners s = []
  /\ updateListeners s = [].


(** The instance as the constructor has it just before it subscribes to
    the status store. *)
Definition fresh (f : float -> string) (tableName : string)
    (whereClause : option Expr) (callbacks : option UseQueryCallbacks)
    (st : Status) (active hasOnUpdate : bool) : State :=
  mkState tableName whereClause callbacks
    ("SELECT * FROM " +:+ tableName
     +:+ match whereClause with
         | Some w => " WHERE " +:+ toString f w
         | None => ""
         end)
    [] false false JNull None [] false
    st false active hasOnUpdate 0 [] [] [] [] 0 [].

Definition is_Applied (i : Input) : bool :=
  match i with Applied _ _ => true | _ => false end.

Definition activates (i : Input) : bool :=
  match i with ConnectionActive true => true | _ => false end.

(** The query texts of the subscribe calls of a log. *)
Definition subscribe_queries (l : list Effect) : list string :=
  flat_map (fun e => match e with SubscribeCall q => [q] | _ => [] end) l.

End Laws.

(** * Properties *)

Import JS Dsl Engine Spec.

(** Name the fields of a state. *)
Ltac open_state s :=
  destruct s as [tn wc cbs q rs sa isc lte uns tus ust st sl act hou sbs
                   live il dl ul lc lg].

(** Split every [if] and [match] of the goal on what it inspects. *)
Ltac split_cases :=
  repeat match goal with
         | |- context [if ?b then _ else _] => destruct b eqn:?; simpl
         | |- context [match ?x with _ => _ end] => destruct x eqn:?; simpl
         end.

Lemma count_app (p : Effect -> bool) (l1 l2 : list Effect) :
  count p (l1 ++ l2) = count p l1 + count p l2.
Proof. unfold count. now rewrite List.filter_app, List.length_app. Qed.

(** Settle a goal about counts and fields after an operation made of
    field updates and log entries. *)
Ltac frame s :=
  open_state s;
  unfold no_subscribe, no_snapshot, subscribed, snapshotsFired;
  simpl; split_cases; rewrite ?count_app; unfold count; simpl;
  repeat split; auto; lia.

(** ** The expression DSL *)

Section DslFacts.

Implicit Types (row : gmap string jsval) (e x : Expr) (cs : list Expr).

Lemma typeof_scalar (v : jsval) :
  String.eqb (typeof v) "string" || String.eqb (typeof v) "number"
  || String.eqb (typeof v) "boolean" = true <-> scalar v.
Proof. destruct v; simpl; intuition discriminate. Qed.

Lemma strict_equals_scalar (v : jsval) (literal : Value) :
  strict_equals v (jsval_of literal) = true <-> scalar_equal v literal.
Proof.
  destruct v, literal; simpl; try (split; [discriminate | tauto]).
  - apply Bool.eqb_true_iff.
  - tauto.
  - apply String.eqb_eq.
Qed.

Lemma scalar_equal_scalar (v : jsval) (literal : Value) :
  scalar_equal v literal -> scalar v.
Proof. destruct v, literal; simpl; tauto. Qed.

Lemma evaluate_eq_iff key value row :
  evaluate (eq key value) row = true <-> scalar_equal (get row key) value.
Proof.
  unfold eq. simpl.
  destruct (String.eqb (typeof (get row key)) "string"
            || String.eqb (typeof (get row key)) "number"
            || String.eqb (typeof (get row key)) "boolean") eqn:Hty.
  - apply strict_equals_scalar.
  - split; [discriminate |].
    intros H. apply scalar_equal_scalar, typeof_scalar in H. congruence.
Qed.

Lemma evaluate_and_iff cs row :
  evaluate (EAnd cs) row = true <-> Forall (fun c => evaluate c row = true) cs.
Proof.
  simpl. rewrite Bool.orb_true_iff, forallb_forall, Forall_forall.
  split.
  - intros [Hlen | Hall]; [| intros c Hc; apply Hall; apply list_elem_of_In, Hc].
    destruct cs; [ | discriminate]. intros c Hc. inversion Hc.
  - intros Hall. right. intros c Hc. apply Hall, list_elem_of_In, Hc.
Qed.

Lemma evaluate_or_iff cs row :
  evaluate (EOr cs) row = true <-> Exists (fun c => evaluate c row = true) cs.
Proof.
  simpl. rewrite Bool.andb_true_iff, existsb_exists, Exists_exists.
  split.
  - intros [_ (c & Hc & Hev)]. exists c. split; [apply list_elem_of_In, Hc | exact Hev].
  - intros (c & Hc & Hev). split.
    + destruct cs; [inversion Hc | reflexivity].
    + exists c. split; [apply list_elem_of_In, Hc | exact Hev].
Qed.

End DslFacts.

(** *** C7, C8: evaluation *)

(** C7. [evaluate] is a total function from expressions and rows to
    booleans (it has no failing case: the model is a plain function, not an
    optional result).  On a leaf [eq(key, literal)] it is true exactly when
    the row's value at [key] is a string, number or boolean strictly equal
    to the literal; it is false when the key is absent and when the value
    is no such scalar.  AND is true exactly when every child is, OR exactly
    when some child is. *)
Theorem C7_evaluate_total_leaf_strict :
  (forall e row, evaluate e row = true \/ evaluate e row = false) /\
  (forall key literal row,
      evaluate (eq key literal) row = true
      <-> scalar_equal (get row key) literal) /\
  (forall key literal row,
      row !! key = None -> evaluate (eq key literal) row = false) /\
  (forall key literal row,
      ~ scalar (get row key) -> evaluate (eq key literal) row = false) /\
  (forall cs row,
      evaluate (EAnd cs) row = true
      <-> Forall (fun c => evaluate c row = true) cs) /\
  (forall cs row,
      evaluate (EOr cs) row = true
      <-> Exists (fun c => evaluate c row = true) cs).
Proof.
  split; [| split; [| split; [| split; [| split]]]].
  - intros e row. destruct (evaluate e row); auto.
  - intros key literal row. apply evaluate_eq_iff.
  - intros key literal row Hnone. apply Bool.not_true_is_false. intros Htrue.
    apply evaluate_eq_iff in Htrue. unfold get in Htrue.
    rewrite Hnone in Htrue. exact Htrue.
  - intros key literal row Hns. apply Bool.not_true_is_false. intros Htrue.
    apply evaluate_eq_iff, scalar_equal_scalar in Htrue. contradiction.
  - intros cs row. apply evaluate_and_iff.
  - intros cs row. apply evaluate_or_iff.
Qed.

(** C7 at a row that lacks the column of the leaf. *)
Lemma C7_witness :
  ({[ "id" := JNumber 1%float ]} : gmap string jsval) !! "isActive" = None
  /\ evaluate (eq "isActive" (VBoolean true)) {[ "id" := JNumber 1%float ]}
     = false.
Proof.
  split; [reflexivity |].
  apply (proj1 (proj2 (proj2 C7_evaluate_total_leaf_strict))).
  reflexivity.
Defined.

(** The leaf on concrete rows: a value of the wrong type, an absent column
    and [NaN] against [NaN] all give [false]. *)
Example evaluate_leaf_examples :
  evaluate Examples.is_active Examples.alice = true
  /\ evaluate Examples.is_active Examples.carol_inactive = false
  /\ evaluate Examples.is_active {[ "isActive" := JString "true" ]} = false
  /\ evaluate Examples.is_active {[ "id" := JNumber 1%float ]} = false
  /\ evaluate (eq "x" (VNumber nan)) {[ "x" := JNumber nan ]} = false
  /\ evaluate (eq "x" (VNumber 0%float)) {[ "x" := JNumber (-0)%float ]} = true.
Proof. repeat split; vm_compute; reflexivity. Qed.

(** C8. For every row, [evaluate(and(), r)] is true and [evaluate(or(), r)]
    is false. *)
Theorem C8_empty_and_or_identities :
  forall row : gmap string jsval,
    evaluate (and []) row = true /\ evaluate (or []) row = false.
Proof. intros row. split; reflexivity. Qed.

(** *** C1: the membership classifier *)

(** C1. [classifyMembership] returns one of the four labels; without a
    predicate it returns [stayIn]; with a predicate it returns [leave] iff
    the predicate is true on the old row and false on the new one, [enter]
    iff false then true, [stayIn] iff true on both and [stayOut] iff false
    on both. *)
Theorem C1_classifyMembership_label :
  (forall w (oldRow newRow : gmap string jsval),
      In (classifyMembership w oldRow newRow) [enter; leave; stayIn; stayOut]
      /\ List.NoDup [enter; leave; stayIn; stayOut]) /\
  (forall oldRow newRow : gmap string jsval,
      classifyMembership None oldRow newRow = stayIn) /\
  (forall p (oldRow newRow : gmap string jsval),
      (classifyMembership (Some p) oldRow newRow = leave
       <-> evaluate p oldRow = true /\ evaluate p newRow = false) /\
      (classifyMembership (Some p) oldRow newRow = enter
       <-> evaluate p oldRow = false /\ evaluate p newRow = true) /\
      (classifyMembership (Some p) oldRow newRow = stayIn
       <-> evaluate p oldRow = true /\ evaluate p newRow = true) /\
      (classifyMembership (Some p) oldRow newRow = stayOut
       <-> evaluate p oldRow = false /\ evaluate p newRow = false)).
Proof.
  split; [| split].
  - intros w oldRow newRow. split.
    + destruct (classifyMembership w oldRow newRow); simpl; auto.
    + repeat (apply List.NoDup_cons; [simpl; intuition discriminate |]).
      apply List.NoDup_nil.
  - reflexivity.
  - intros p oldRow newRow. unfold classifyMembership.
    destruct (evaluate p oldRow), (evaluate p newRow); simpl;
      intuition (try discriminate; try reflexivity).
Qed.

(** *** C9: the builders *)

Section Builders.

Implicit Types (x c : Expr) (cs : list Expr) (operands : list (option Expr)).

Lemma filter_Boolean cs : List.filter Boolean cs = cs.
Proof. induction cs as [| c cs IH]; simpl; [reflexivity | now rewrite IH]. Qed.

Lemma and_flat_flat_map operands :
  and_flat operands = flat_map and_operand operands.
Proof.
  induction operands as [| [[k v | cs | cs] |] rest IH]; simpl;
    now rewrite ?IH.
Qed.

Lemma or_flat_flat_map operands :
  or_flat operands = flat_map or_operand operands.
Proof.
  induction operands as [| [[k v | cs | cs] |] rest IH]; simpl;
    now rewrite ?IH.
Qed.

Lemma and_collapse operands :
  and operands = collapse EAnd (flat_map and_operand operands).
Proof.
  unfold and. rewrite filter_Boolean, and_flat_flat_map.
  destruct (flat_map and_operand operands) as [| a [| b l]]; reflexivity.
Qed.

Lemma or_collapse operands :
  or operands = collapse EOr (flat_map or_operand operands).
Proof.
  unfold or. rewrite filter_Boolean, or_flat_flat_map.
  destruct (flat_map or_operand operands) as [| a [| b l]]; reflexivity.
Qed.

Lemma not_own_and_child c : c <> EAnd [c].
Proof. intros H. apply (f_equal nodes) in H. simpl in H. lia. Qed.

Lemma not_own_or_child c : c <> EOr [c].
Proof. intros H. apply (f_equal nodes) in H. simpl in H. lia. Qed.

Lemma and_single_iff x : and [Some x] = x <-> forall c, x <> EAnd [c].
Proof.
  rewrite and_collapse. destruct x as [k v | cs | cs]; simpl.
  - split; [intros _ c; discriminate | reflexivity].
  - rewrite app_nil_r. destruct cs as [| a [| b l]]; simpl.
    + split; [intros _ c; discriminate | reflexivity].
    + split.
      * intros H. exfalso. exact (not_own_and_child a H).
      * intros H. exfalso. exact (H a Logic.eq_refl).
    + split; [intros _ c; discriminate | reflexivity].
  - split; [intros _ c; discriminate | reflexivity].
Qed.

Lemma or_single_iff x : or [Some x] = x <-> forall c, x <> EOr [c].
Proof.
  rewrite or_collapse. destruct x as [k v | cs | cs]; simpl.
  - split; [intros _ c; discriminate | reflexivity].
  - split; [intros _ c; discriminate | reflexivity].
  - rewrite app_nil_r. destruct cs as [| a [| b l]]; simpl.
    + split; [intros _ c; discriminate | reflexivity].
    + split.
      * intros H. exfalso. exact (not_own_or_child a H).
      * intros H. exfalso. exact (H a Logic.eq_refl).
    + split; [intros _ c; discriminate | reflexivity].
Qed.

Lemma collapsed_children_and cs :
  collapsed (EAnd cs) = true -> forallb collapsed cs = true.
Proof. simpl. intros H. apply Bool.andb_true_iff in H. tauto. Qed.

Lemma collapsed_children_or cs :
  collapsed (EOr cs) = true -> forallb collapsed cs = true.
Proof. simpl. intros H. apply Bool.andb_true_iff in H. tauto. Qed.

Lemma collapsed_and_operands operands :
  (forall x, In (Some x) operands -> collapsed x = true) ->
  forallb collapsed (flat_map and_operand operands) = true.
Proof.
  induction operands as [| o rest IH]; intros H; [reflexivity |].
  simpl. rewrite forallb_app. apply Bool.andb_true_iff. split.
  - destruct o as [[k v | cs | cs] |]; simpl; try reflexivity.
    + apply collapsed_children_and, H. now left.
    + rewrite Bool.andb_true_r.
      apply (H (EOr cs)). now left.
  - apply IH. intros x Hx. apply H. now right.
Qed.

Lemma collapsed_or_operands operands :
  (forall x, In (Some x) operands -> collapsed x = true) ->
  forallb collapsed (flat_map or_operand operands) = true.
Proof.
  induction operands as [| o rest IH]; intros H; [reflexivity |].
  simpl. rewrite forallb_app. apply Bool.andb_true_iff. split.
  - destruct o as [[k v | cs | cs] |]; simpl; try reflexivity.
    + rewrite Bool.andb_true_r.
      apply (H (EAnd cs)). now left.
    + apply collapsed_children_or, H. now left.
  - apply IH. intros x Hx. apply H. now right.
Qed.

Lemma collapsed_collapse (node : list Expr -> Expr) cs :
  (forall l, collapsed (node l)
             = negb (Nat.eqb (length l) 1) && forallb collapsed l) ->
  forallb collapsed cs = true -> collapsed (collapse node cs) = true.
Proof.
  intros Hnode Hcs. destruct cs as [| a [| b l]]; simpl.
  - now rewrite Hnode.
  - simpl in Hcs. apply Bool.andb_true_iff in Hcs. tauto.
  - rewrite Hnode. exact Hcs.
Qed.

(** Whatever the builders return has no single-child AND/OR node. *)
Lemma built_collapsed x : built x -> collapsed x = true.
Proof.
  induction 1 as [k v | operands _ IH | operands _ IH].
  - reflexivity.
  - rewrite and_collapse. apply collapsed_collapse; [reflexivity |].
    now apply collapsed_and_operands.
  - rewrite or_collapse. apply collapsed_collapse; [reflexivity |].
    now apply collapsed_or_operands.
Qed.

Lemma collapsed_not_single x :
  collapsed x = true -> forall c, x <> EAnd [c] /\ x <> EOr [c].
Proof.
  intros H c. split; intros ->; simpl in H; discriminate.
Qed.

End Builders.

(** C9 (as amended).  For every expression [x] built with [eq], [and],
    [or], [and(x)] and [or(x)] are [x] itself.  For an arbitrary node
    object, [and(x)] is [x] exactly when [x] is not an AND node with a
    single child (and likewise for [or]).  In general a builder call drops
    its falsy operands, splices in the children of the operands that are
    nodes of the same operator (one level), keeps the others, in the order
    supplied, and then returns the empty node for no survivor, the
    survivor itself for one, a node over the survivors otherwise. *)
Theorem C9_builders_collapse_single_operand :
  (forall x, built x -> and [Some x] = x /\ or [Some x] = x) /\
  (forall x, and [Some x] = x <-> forall c, x <> EAnd [c]) /\
  (forall x, or [Some x] = x <-> forall c, x <> EOr [c]) /\
  (forall operands,
      and operands = collapse EAnd (flat_map and_operand operands)) /\
  (forall operands,
      or operands = collapse EOr (flat_map or_operand operands)).
Proof.
  split; [| split; [| split; [| split]]].
  - intros x Hx. apply built_collapsed in Hx.
    split; [apply and_single_iff | apply or_single_iff];
      intros c; apply (collapsed_not_single x Hx c).
  - apply and_single_iff.
  - apply or_single_iff.
  - apply and_collapse.
  - apply or_collapse.
Qed.

Lemma built_admin_in_eng_or_product : built Examples.admin_in_eng_or_product.
Proof.
  unfold Examples.admin_in_eng_or_product.
  apply built_and. intros x [Hx | [Hx | []]]; inversion Hx; subst.
  - apply built_eq.
  - apply built_or. intros y [Hy | [Hy | []]]; inversion Hy; apply built_eq.
Qed.

(** C9 at [and(eq('role','admin'), or(eq('dept','Eng'), eq('dept','Product')))]. *)
Lemma C9_witness :
  built Examples.admin_in_eng_or_product
  /\ and [Some Examples.admin_in_eng_or_product]
     = Examples.admin_in_eng_or_product
  /\ or [Some Examples.admin_in_eng_or_product]
     = Examples.admin_in_eng_or_product.
Proof.
  split; [exact built_admin_in_eng_or_product |].
  exact (proj1 C9_builders_collapse_single_operand
           Examples.admin_in_eng_or_product built_admin_in_eng_or_product).
Defined.

(** C9 as stated fails on a node object that was not obtained from a
    builder: [and({type:'and', children:[eq('isActive', true)]})] returns
    the leaf, not the node. *)
Lemma C9_counterexample :
  and [Some Examples.singleton_and] <> Examples.singleton_and.
Proof. vm_compute. discriminate. Qed.

(** *** C3: rendering *)

Section RenderingFacts.

Variable String_of_number : float -> string.

Implicit Types (s sub sep : string) (xs : list string).

Lemma prefix_append sub s : String.prefix sub (sub +:+ s) = true.
Proof.
  induction sub as [| a sub IH]; simpl.
  - now destruct s.
  - destruct (ascii_dec a a) as [_ | Hne]; [exact IH | congruence].
Qed.

Lemma includes_unfold s sub :
  includes s sub
  = String.prefix sub s
    || match s with
       | EmptyString => false
       | String _ rest => includes rest sub
       end.
Proof. destruct s; reflexivity. Qed.

Lemma includes_at_front sub s : includes (sub +:+ s) sub = true.
Proof. rewrite includes_unfold, prefix_append. reflexivity. Qed.

Lemma includes_after s1 s2 sub :
  includes s2 sub = true -> includes (s1 +:+ s2) sub = true.
Proof.
  intros H. induction s1 as [| a s1 IH]; simpl; [exact H |].
  rewrite IH. apply Bool.orb_true_r.
Qed.

Lemma join_two_includes sep x y xs :
  includes (join sep (x :: y :: xs)) sep = true.
Proof.
  change (join sep (x :: y :: xs)) with (x +:+ sep +:+ join sep (y :: xs)).
  apply includes_after, includes_at_front.
Qed.

Lemma length_append s1 s2 :
  String.length (s1 +:+ s2) = String.length s1 + String.length s2.
Proof. induction s1 as [| a s1 IH]; simpl; [reflexivity | now rewrite IH]. Qed.

Lemma not_own_parenthesization s : s <> "(" +:+ s +:+ ")".
Proof.
  intros H. apply (f_equal String.length) in H.
  rewrite !length_append in H. simpl in H. lia.
Qed.

Lemma parenthesize_cases s :
  (includes s " AND " || includes s " OR " = true
   /\ parenthesize s = "(" +:+ s +:+ ")")
  \/ (includes s " AND " || includes s " OR " = false
      /\ parenthesize s = s).
Proof.
  unfold parenthesize.
  destruct (includes s " AND "), (includes s " OR "); simpl; auto.
Qed.

Lemma toString_joined e :
  toString String_of_number e
  = if is_node e then parenthesize (joined String_of_number e)
    else joined String_of_number e.
Proof. destruct e; reflexivity. Qed.

Lemma toString_wrapped_iff e :
  toString String_of_number e = "(" +:+ joined String_of_number e +:+ ")"
  <-> is_node e = true
      /\ includes (joined String_of_number e) " AND "
         || includes (joined String_of_number e) " OR " = true.
Proof.
  rewrite toString_joined. destruct (is_node e).
  - destruct (parenthesize_cases (joined String_of_number e))
      as [[Hin ->] | [Hin ->]]; rewrite Hin.
    + tauto.
    + split; [intros H; now apply not_own_parenthesization in H |].
      intros [_ H]. discriminate.
  - split; [intros H; now apply not_own_parenthesization in H |].
    intros [H _]. discriminate.
Qed.

Lemma toString_bare_or_wrapped e :
  toString String_of_number e = joined String_of_number e
  \/ toString String_of_number e = "(" +:+ joined String_of_number e +:+ ")".
Proof.
  rewrite toString_joined. destruct (is_node e); [| now left].
  destruct (parenthesize_cases (joined String_of_number e))
    as [[_ ->] | [_ ->]]; auto.
Qed.

Lemma toString_and_two (cs : list Expr) :
  2 <= length cs ->
  toString String_of_number (EAnd cs)
  = "(" +:+ join " AND " (List.map (toString String_of_number) cs) +:+ ")".
Proof.
  intros Hlen. destruct cs as [| a [| b cs]]; simpl in Hlen; try lia.
  apply (toString_wrapped_iff (EAnd (a :: b :: cs))). split; [reflexivity |].
  cbn [joined List.map]. rewrite join_two_includes. reflexivity.
Qed.

Lemma toString_or_two (cs : list Expr) :
  2 <= length cs ->
  toString String_of_number (EOr cs)
  = "(" +:+ join " OR " (List.map (toString String_of_number) cs) +:+ ")".
Proof.
  intros Hlen. destruct cs as [| a [| b cs]]; simpl in Hlen; try lia.
  apply (toString_wrapped_iff (EOr (a :: b :: cs))). split; [reflexivity |].
  cbn [joined List.map]. rewrite join_two_includes. apply Bool.orb_true_r.
Qed.

End RenderingFacts.

(** C3 (as amended).  The predicate
    [and(eq('role','admin'), or(eq('dept','Eng'), eq('dept','Product')))]
    renders as [(role = 'admin' AND (dept = 'Eng' OR dept = 'Product'))]:
    [parenthesize] is applied to every AND/OR node, the outermost one
    included.  A node is rendered as its children's renderings joined by
    the operator, bare or enclosed in one pair of parentheses, and it is
    enclosed exactly when the joined text contains [ AND ] or [ OR ];
    that is the case of every node with two or more children; a leaf is
    never enclosed. *)
Theorem C3_rendering_parenthesizes_every_node :
  (forall f,
      toString f Examples.admin_in_eng_or_product
      = "(role = 'admin' AND (dept = 'Eng' OR dept = 'Product'))") /\
  (forall f e,
      toString f e = joined f e
      \/ toString f e = "(" +:+ joined f e +:+ ")") /\
  (forall f e,
      toString f e = "(" +:+ joined f e +:+ ")"
      <-> is_node e = true
          /\ includes (joined f e) " AND " || includes (joined f e) " OR "
             = true) /\
  (forall f cs,
      2 <= length cs ->
      toString f (EAnd cs)
      = "(" +:+ join " AND " (List.map (toString f) cs) +:+ ")") /\
  (forall f cs,
      2 <= length cs ->
      toString f (EOr cs)
      = "(" +:+ join " OR " (List.map (toString f) cs) +:+ ")").
Proof.
  split; [| split; [| split; [| split]]].
  - intros f. vm_compute. reflexivity.
  - apply toString_bare_or_wrapped.
  - apply toString_wrapped_iff.
  - apply toString_and_two.
  - apply toString_or_two.
Qed.

(** C3 at the inner OR node of the example. *)
Lemma C3_witness :
  2 <= length [eq "dept" (VString "Eng"); eq "dept" (VString "Product")]
  /\ toString Examples.no_number_rendered
       (EOr [eq "dept" (VString "Eng"); eq "dept" (VString "Product")])
     = "(dept = 'Eng' OR dept = 'Product')".
Proof.
  split; [simpl; lia |].
  rewrite (proj2 (proj2 (proj2 (proj2 C3_rendering_parenthesizes_every_node)))
             Examples.no_number_rendered
             [eq "dept" (VString "Eng"); eq "dept" (VString "Product")]).
  - reflexivity.
  - simpl; lia.
Defined.

(** C3 as stated fails: the rendering of the example is not the text
    without the outer parentheses, whatever [String] does on numbers. *)
Lemma C3_counterexample :
  ~ (forall f,
        toString f Examples.admin_in_eng_or_product
        = "role = 'admin' AND (dept = 'Eng' OR dept = 'Product')").
Proof.
  intros H. specialize (H Examples.no_number_rendered).
  vm_compute in H. discriminate H.
Qed.

(** ** The view engine *)

(** *** Strict equality and truthiness *)

Section JsFacts.

Import SpecFloat.

Lemma SFeqb_true_zero_compat (a b : spec_float) :
  SFeqb a b = true ->
  SFeqb a a = true /\ SFeqb b b = true
  /\ SFeqb a (S754_zero false) = SFeqb b (S754_zero false).
Proof.
  unfold SFeqb.
  destruct a as [sa | sa | | sa ma ea], b as [sb | sb | | sb mb eb];
    simpl; intros H; try discriminate H; try (repeat split; reflexivity);
    repeat match goal with s : bool |- _ => destruct s end;
    simpl in *; try discriminate H;
    rewrite ?Z.compare_refl, ?Pos.compare_cont_refl; simpl;
    repeat split; reflexivity.
Qed.

Lemma float_eqb_falsy_compat (x y : float) :
  PrimFloat.eqb x y = true ->
  PrimFloat.is_zero x || PrimFloat.is_nan x = true ->
  PrimFloat.is_zero y || PrimFloat.is_nan y = true.
Proof.
  unfold PrimFloat.is_zero, PrimFloat.is_nan.
  rewrite !FloatAxioms.eqb_spec.
  change (Prim2SF PrimFloat.zero) with (S754_zero false).
  intros Hxy Hx.
  destruct (SFeqb_true_zero_compat _ _ Hxy) as (Hxx & Hyy & Hz).
  rewrite Hxx in Hx. rewrite Hyy, <- Hz. exact Hx.
Qed.

(** A value strictly equal to a falsy value is falsy. *)
Lemma strict_equals_falsy (a b : jsval) :
  strict_equals a b = true -> truthy a = false -> truthy b = false.
Proof.
  destruct a, b; simpl; try discriminate; try reflexivity.
  - intros H ->. now apply Bool.eqb_prop in H.
  - intros Hxy Hx. apply Bool.negb_false_iff in Hx. apply Bool.negb_false_iff.
    exact (float_eqb_falsy_compat _ _ Hxy Hx).
  - intros H. apply String.eqb_eq in H. now subst.
  - intros H. apply Z.eqb_eq in H. now subst.
Qed.

(** A truthy value is strictly equal to itself (only [NaN] is not, and
    [NaN] is falsy). *)
Lemma truthy_strict_equals_refl (a : jsval) :
  truthy a = true -> strict_equals a a = true.
Proof.
  destruct a; simpl; try discriminate; intros H.
  - now rewrite H.
  - unfold PrimFloat.is_nan in H. apply Bool.negb_true_iff in H.
    apply Bool.orb_false_iff in H. destruct H as [_ H].
    now apply Bool.negb_false_iff in H.
  - apply String.eqb_refl.
  - apply Z.eqb_refl.
  - apply Pos.eqb_refl.
  - apply Pos.eqb_refl.
  - apply Pos.eqb_refl.
Qed.

End JsFacts.

(** *** The table listeners and the transaction test *)

Section Listeners.

Implicit Types (s : State) (e : RawEvent) (es : list RawEvent).

Lemma only_notified_refl s : only_notified s s.
Proof. repeat split. Qed.

Lemma call_onInsert_notifies row s : only_notified s (call_onInsert row s).
Proof.
  open_state s. unfold only_notified, call_onInsert, published. simpl.
  destruct cbs as [[a b c d] |]; simpl; [destruct a |]; simpl;
    rewrite ?count_app; unfold count; simpl; repeat split; lia.
Qed.

Lemma call_onDelete_notifies row s : only_notified s (call_onDelete row s).
Proof.
  open_state s. unfold only_notified, call_onDelete, published. simpl.
  destruct cbs as [[a b c d] |]; simpl; [destruct b |]; simpl;
    rewrite ?count_app; unfold count; simpl; repeat split; lia.
Qed.

Lemma call_onUpdate_notifies o n s : only_notified s (call_onUpdate o n s).
Proof.
  open_state s. unfold only_notified, call_onUpdate, published. simpl.
  destruct cbs as [[a b c d] |]; simpl; [destruct c |]; simpl;
    rewrite ?count_app; unfold count; simpl; repeat split; lia.
Qed.

(** [#updateSnapshot] publishes once, with the filtered cache, and leaves
    the last-seen transaction alone. *)
Lemma updateSnapshot_publishes cache s :
  whereClause (updateSnapshot cache s) = whereClause s
  /\ callbacks (updateSnapshot cache s) = callbacks s
  /\ latestTransactionEvent (updateSnapshot cache s)
     = latestTransactionEvent s
  /\ published (updateSnapshot cache s) = published s + 1
  /\ rows (updateSnapshot cache s) = computeSnapshot cache s.
Proof.
  open_state s.
  unfold updateSnapshot, initialSnapshotHandler, computeSnapshot, published.
  simpl. destruct cbs as [[a b c d] |]; simpl; [destruct d, isc |]; simpl;
    rewrite ?count_app; unfold count; simpl; repeat split; lia.
Qed.

Lemma set_latestTransactionEvent_fields event s :
  whereClause (set_latestTransactionEvent event s) = whereClause s
  /\ callbacks (set_latestTransactionEvent event s) = callbacks s
  /\ latestTransactionEvent (set_latestTransactionEvent event s) = event
  /\ published (set_latestTransactionEvent event s) = published s.
Proof. open_state s. repeat split. Qed.

(** The tail of a listener, run after the user callback. *)
Lemma refreshPerTransaction_spec event cache s s1 :
  only_notified s s1 ->
  let fire := recomputes event (latestTransactionEvent s) in
  let s2 := refreshPerTransaction event cache s1 in
  whereClause s2 = whereClause s
  /\ callbacks s2 = callbacks s
  /\ published s2 = published s + (if fire then 1 else 0)
  /\ latestTransactionEvent s2
     = (if fire then event else latestTransactionEvent s)
  /\ (fire = true -> rows s2 = computeSnapshot cache s).
Proof.
  intros (Hw & Hc & Hl & Hp). unfold recomputes, refreshPerTransaction.
  rewrite Hl.
  destruct (negb (strict_equals event (latestTransactionEvent s))
            || negb (truthy (latestTransactionEvent s))); simpl.
  - destruct (updateSnapshot_publishes cache
                (set_latestTransactionEvent event s1))
      as (Hw' & Hc' & Hl' & Hp' & Hr').
    destruct (set_latestTransactionEvent_fields event s1)
      as (Hw'' & Hc'' & Hl'' & Hp'').
    rewrite Hw', Hc', Hl', Hp', Hr', Hw'', Hc'', Hl'', Hp'', Hw, Hc, Hp.
    repeat split. intros _. unfold computeSnapshot.
    now rewrite Hw'', Hw.
  - rewrite Hw, Hc, Hl, Hp. repeat split; [lia | discriminate].
Qed.

(** What one listener run does with an event that gets past the filter. *)
Lemma deliver_spec e s :
  reachesDispatch e s = true ->
  let fire := recomputes (transactionOf e) (latestTransactionEvent s) in
  whereClause (deliver e s) = whereClause s
  /\ callbacks (deliver e s) = callbacks s
  /\ published (deliver e s) = published s + (if fire then 1 else 0)
  /\ latestTransactionEvent (deliver e s)
     = (if fire then transactionOf e else latestTransactionEvent s)
  /\ (fire = true -> rows (deliver e s) = computeSnapshot (cacheOf e) s).
Proof.
  destruct e as [ev row cache | ev row cache | ev o n cache]; simpl.
  - intros H. apply Bool.negb_true_iff in H. unfold onInsert. rewrite H.
    apply refreshPerTransaction_spec, call_onInsert_notifies.
  - intros H. apply Bool.negb_true_iff in H. unfold onDelete. rewrite H.
    apply refreshPerTransaction_spec, call_onDelete_notifies.
  - unfold onUpdate.
    destruct (classifyMembership (whereClause s) o n); intros H;
      try discriminate H; apply refreshPerTransaction_spec.
    + apply call_onInsert_notifies.
    + apply call_onDelete_notifies.
    + apply call_onUpdate_notifies.
Qed.

(** An event stopped by the filter changes nothing at all. *)
Lemma deliver_filtered e s : reachesDispatch e s = false -> deliver e s = s.
Proof.
  destruct e as [ev row cache | ev row cache | ev o n cache]; simpl.
  - intros H. apply Bool.negb_false_iff in H. unfold onInsert. now rewrite H.
  - intros H. apply Bool.negb_false_iff in H. unfold onDelete. now rewrite H.
  - unfold onUpdate.
    destruct (classifyMembership (whereClause s) o n); intros H;
      try discriminate H; reflexivity.
Qed.

Lemma reachesDispatch_whereClause e s s' :
  whereClause s' = whereClause s ->
  reachesDispatch e s' = reachesDispatch e s.
Proof.
  intros H. destruct e; simpl; unfold filteredOut; now rewrite H.
Qed.

Lemma deliverAll_cons e es s :
  deliverAll (e :: es) s = deliverAll es (deliver e s).
Proof. reflexivity. Qed.

(** Once a truthy transaction is the last seen, further events of that
    transaction recompute nothing. *)
Lemma deliverAll_same_transaction t es : forall s,
  truthy t = true ->
  latestTransactionEvent s = t ->
  Forall (fun e => transactionOf e = t) es ->
  published (deliverAll es s) = published s
  /\ latestTransactionEvent (deliverAll es s) = t.
Proof.
  induction es as [| e es IH]; intros s Ht Hl Hall; [now split |].
  inversion Hall as [| e' es' Hte Hrest]; subst e' es'.
  rewrite deliverAll_cons.
  destruct (reachesDispatch e s) eqn:Hre.
  - destruct (deliver_spec e s Hre) as (Hw & _ & Hp & Hl' & _).
    assert (Hfire : recomputes (transactionOf e) (latestTransactionEvent s)
                    = false).
    { unfold recomputes. rewrite Hte, Hl, Ht.
      now rewrite (truthy_strict_equals_refl t Ht). }
    rewrite Hfire in Hp, Hl'.
    destruct (IH (deliver e s) Ht) as [IHp IHl]; try assumption.
    + now rewrite Hl'.
    + split; [lia | exact IHl].
  - rewrite (deliver_filtered e s Hre). now apply IH.
Qed.

(** Events with a falsy transaction recompute every time. *)
Lemma recomputes_falsy event latest :
  truthy event = false -> recomputes event latest = true.
Proof.
  intros Hf. unfold recomputes.
  destruct (strict_equals event latest) eqn:Heq; [| reflexivity].
  now rewrite (strict_equals_falsy event latest Heq Hf).
Qed.

Lemma deliverAll_falsy es : forall s,
  Forall (fun e => truthy (transactionOf e) = false
                   /\ reachesDispatch e s = true) es ->
  published (deliverAll es s) = published s + length es.
Proof.
  induction es as [| e es IH]; intros s Hall; simpl; [lia |].
  inversion Hall as [| e' es' [Hfe Hre] Hrest]; subst e' es'.
  change (deliverAll (e :: es) s) with (deliverAll es (deliver e s)).
  destruct (deliver_spec e s Hre) as (Hw & _ & Hp & _ & _).
  rewrite (recomputes_falsy _ (latestTransactionEvent s) Hfe) in Hp.
  rewrite IH.
  - lia.
  - eapply List.Forall_impl; [| exact Hrest].
    intros e0 [H1 H2]. split; [exact H1 |].
    now rewrite (reachesDispatch_whereClause e0 s (deliver e s) Hw).
Qed.

End Listeners.

(** *** C2, C10: one recomputation per transaction *)

(** C2 (as amended).  For a run of consecutive raw events that share one
    truthy transaction identity, different from the last-seen identity
    when the run starts, and of which at least one gets past the filter
    (an insert or delete whose row satisfies the predicate, an update not
    classified [stayOut]), the materialized set is recomputed and
    republished exactly once.  Any event past the filter whose identity
    differs from the last-seen identity recomputes, with the filtered
    cache as the new row set, and becomes the last-seen identity. *)
Theorem C2_one_recompute_per_truthy_transaction :
  (forall s t es,
      truthy t = true ->
      strict_equals t (latestTransactionEvent s) = false ->
      Forall (fun e => transactionOf e = t) es ->
      Exists (fun e => reachesDispatch e s = true) es ->
      published (deliverAll es s) = published s + 1) /\
  (forall s e,
      reachesDispatch e s = true ->
      strict_equals (transactionOf e) (latestTransactionEvent s) = false ->
      published (deliver e s) = published s + 1
      /\ rows (deliver e s) = computeSnapshot (cacheOf e) s
      /\ latestTransactionEvent (deliver e s) = transactionOf e).
Proof.
  assert (Hone : forall s e,
             reachesDispatch e s = true ->
             strict_equals (transactionOf e) (latestTransactionEvent s)
             = false ->
             published (deliver e s) = published s + 1
             /\ rows (deliver e s) = computeSnapshot (cacheOf e) s
             /\ latestTransactionEvent (deliver e s) = transactionOf e).
  { intros s e Hre Hne.
    destruct (deliver_spec e s Hre) as (_ & _ & Hp & Hl & Hr).
    unfold recomputes in *. rewrite Hne in *. simpl in *. auto. }
  split; [| exact Hone].
  intros s t es Ht Hne Hall Hex.
  induction es as [| e es IH]; [inversion Hex |].
  inversion Hall as [| e' es' Hte Hrest]; subst e' es'.
  rewrite deliverAll_cons.
  destruct (reachesDispatch e s) eqn:Hre.
  - rewrite <- Hte in Hne.
    destruct (Hone s e Hre Hne) as (Hp & _ & Hl).
    destruct (deliverAll_same_transaction t es (deliver e s) Ht) as [Hq _];
      try assumption.
    + now rewrite Hl.
    + lia.
  - rewrite (deliver_filtered e s Hre). apply IH; [exact Hrest |].
    inversion Hex as [e' es' Hhd | e' es' Htl]; subst e' es';
      [congruence | exact Htl].
Qed.

(** C2 at three events of transaction [tx1] delivered to a fresh view. *)
Lemma C2_witness :
  published (deliverAll (Examples.three_events_of Examples.tx1)
               Examples.view_built_connected)
  = published Examples.view_built_connected + 1.
Proof.
  refine (proj1 C2_one_recompute_per_truthy_transaction
            Examples.view_built_connected Examples.tx1
            (Examples.three_events_of Examples.tx1) _ _ _ _).
  - reflexivity.
  - reflexivity.
  - repeat constructor.
  - apply List.Exists_cons_hd. reflexivity.
Defined.

(** C2 as stated fails when the shared transaction identity is falsy:
    three events carrying [undefined], all past the filter, recompute
    three times. *)
Lemma C2_counterexample :
  Forall (fun e => transactionOf e = JUndefined
                   /\ reachesDispatch e Examples.view_built_connected = true)
    (Examples.three_events_of JUndefined)
  /\ published (deliverAll (Examples.three_events_of JUndefined)
                  Examples.view_built_connected)
     = published Examples.view_built_connected + 3
  /\ published (deliverAll (Examples.three_events_of JUndefined)
                  Examples.view_built_connected)
     <> published Examples.view_built_connected + 1.
Proof.
  split; [repeat constructor |].
  split; [vm_compute; reflexivity | vm_compute; discriminate].
Qed.

(** C10.  When the transaction identity of the events is falsy, every
    event that gets past the filter recomputes: a sequence of such events
    recomputes once per event, also when they all carry the same falsy
    identity. *)
Theorem C10_falsy_transaction_always_recomputes :
  forall s es,
    Forall (fun e => truthy (transactionOf e) = false
                     /\ reachesDispatch e s = true) es ->
    published (deliverAll es s) = published s + length es
    /\ (forall e, In e es -> published (deliver e s) = published s + 1).
Proof.
  intros s es Hall. split; [now apply deliverAll_falsy |].
  intros e Hin. rewrite List.Forall_forall in Hall.
  destruct (Hall e Hin) as [Hf Hre].
  destruct (deliver_spec e s Hre) as (_ & _ & Hp & _ & _).
  now rewrite (recomputes_falsy _ _ Hf) in Hp.
Qed.

(** C10 at three events carrying [null], on a view filtered by
    [isActive = true]. *)
Lemma C10_witness :
  published (deliverAll (Examples.three_events_of JNull)
               Examples.active_users_view)
  = published Examples.active_users_view + 3.
Proof.
  refine (proj1 (C10_falsy_transaction_always_recomputes
                   Examples.active_users_view
                   (Examples.three_events_of JNull) _)).
  repeat constructor.
Defined.

(** *** Frames: what each operation leaves alone *)

Section Frames.

Implicit Types (s : State) (e : RawEvent) (c : Cleanup).

Lemma no_subscribe_refl s : no_subscribe s s.
Proof. repeat split; auto. Qed.

Lemma no_subscribe_trans s1 s2 s3 :
  no_subscribe s1 s2 -> no_subscribe s2 s3 -> no_subscribe s1 s3.
Proof.
  intros (A1 & A2 & A3) (B1 & B2 & B3). repeat split; try congruence; auto.
Qed.

Lemma no_snapshot_refl s : no_snapshot s s.
Proof. repeat split. Qed.

Lemma no_snapshot_trans s1 s2 s3 :
  no_snapshot s1 s2 -> no_snapshot s2 s3 -> no_snapshot s1 s3.
Proof. intros (A1 & A2 & A3) (B1 & B2 & B3). repeat split; congruence. Qed.

Lemma call_onInsert_no_subscribe row s : no_subscribe s (call_onInsert row s).
Proof. unfold call_onInsert. frame s. Qed.

Lemma call_onDelete_no_subscribe row s : no_subscribe s (call_onDelete row s).
Proof. unfold call_onDelete. frame s. Qed.

Lemma call_onUpdate_no_subscribe o n s : no_subscribe s (call_onUpdate o n s).
Proof. unfold call_onUpdate. frame s. Qed.

Lemma call_onInsert_no_snapshot row s : no_snapshot s (call_onInsert row s).
Proof. unfold call_onInsert. frame s. Qed.

Lemma call_onDelete_no_snapshot row s : no_snapshot s (call_onDelete row s).
Proof. unfold call_onDelete. frame s. Qed.

Lemma call_onUpdate_no_snapshot o n s : no_snapshot s (call_onUpdate o n s).
Proof. unfold call_onUpdate. frame s. Qed.

Lemma updateSnapshot_no_subscribe cache s :
  no_subscribe s (updateSnapshot cache s).
Proof. unfold updateSnapshot, initialSnapshotHandler. frame s. Qed.

Lemma refreshPerTransaction_no_subscribe event cache s :
  no_subscribe s (refreshPerTransaction event cache s).
Proof.
  unfold refreshPerTransaction.
  destruct (_ || _); [| apply no_subscribe_refl].
  eapply no_subscribe_trans; [| apply updateSnapshot_no_subscribe].
  frame s.
Qed.

Lemma deliver_no_subscribe e s : no_subscribe s (deliver e s).
Proof.
  destruct e as [ev row cache | ev row cache | ev o n cache]; simpl.
  - unfold onInsert. destruct (filteredOut row s); [apply no_subscribe_refl |].
    eapply no_subscribe_trans;
      [apply call_onInsert_no_subscribe
      | apply refreshPerTransaction_no_subscribe].
  - unfold onDelete. destruct (filteredOut row s); [apply no_subscribe_refl |].
    eapply no_subscribe_trans;
      [apply call_onDelete_no_subscribe
      | apply refreshPerTransaction_no_subscribe].
  - unfold onUpdate. destruct (classifyMembership (whereClause s) o n);
      try apply no_subscribe_refl;
      (eapply no_subscribe_trans;
       [| apply refreshPerTransaction_no_subscribe]).
    + apply call_onInsert_no_subscribe.
    + apply call_onDelete_no_subscribe.
    + apply call_onUpdate_no_subscribe.
Qed.

Lemma run_cleanup_no_subscribe c s : no_subscribe s (run_cleanup c s).
Proof. destruct c; unfold run_cleanup, call_unsubscribeStatus; frame s. Qed.

Lemma run_cleanup_no_snapshot c s : no_snapshot s (run_cleanup c s).
Proof. destruct c; unfold run_cleanup, call_unsubscribeStatus; frame s. Qed.

Lemma run_cleanup_unsubscribe c s :
  unsubscribe (run_cleanup c s) = unsubscribe s.
Proof.
  destruct c; unfold run_cleanup, call_unsubscribeStatus; open_state s;
    simpl; split_cases; reflexivity.
Qed.

Lemma cleanups_frame (cs : list Cleanup) : forall s,
  let s' := fold_left (fun s c => run_cleanup c s) cs s in
  no_subscribe s s' /\ no_snapshot s s' /\ unsubscribe s' = unsubscribe s.
Proof.
  induction cs as [| c cs IH]; intros s; simpl.
  - split; [apply no_subscribe_refl | split; [apply no_snapshot_refl | reflexivity]].
  - destruct (IH (run_cleanup c s)) as (A & B & C).
    split; [| split].
    + eapply no_subscribe_trans; [apply run_cleanup_no_subscribe | exact A].
    + eapply no_snapshot_trans; [apply run_cleanup_no_snapshot | exact B].
    + rewrite C. apply run_cleanup_unsubscribe.
Qed.

Lemma destroy_frame s :
  no_subscribe s (destroy s) /\ no_snapshot s (destroy s)
  /\ unsubscribe (destroy s) = unsubscribe s
  /\ tableUnSubscribers (destroy s) = [].
Proof.
  unfold destroy.
  set (s1 := match unsubscribe s with
             | Some h => emit (CancelUnsubscribe h)
                           (set_liveSubscriptions
                              (without h (liveSubscriptions s)) s)
             | None => s
             end).
  assert (H1 : no_subscribe s s1 /\ no_snapshot s s1
               /\ unsubscribe s1 = unsubscribe s).
  { subst s1. destruct (unsubscribe s) as [h |] eqn:Hu.
    - split; [| split]; [frame s | frame s |].
      revert Hu. open_state s. simpl. auto.
    - split; [apply no_subscribe_refl | split; [apply no_snapshot_refl | exact Hu]]. }
  destruct H1 as (A1 & B1 & C1).
  destruct (cleanups_frame (tableUnSubscribers s1) s1) as (A2 & B2 & C2).
  set (s2 := fold_left (fun s c => run_cleanup c s) (tableUnSubscribers s1) s1)
    in *.
  assert (H3 : no_subscribe s2 (set_tableUnSubscribers [] s2)
               /\ no_snapshot s2 (set_tableUnSubscribers [] s2)
               /\ unsubscribe (set_tableUnSubscribers [] s2) = unsubscribe s2
               /\ tableUnSubscribers (set_tableUnSubscribers [] s2) = []).
  { clearbody s2. clear. split; [| split]; [frame s2 | frame s2 |].
    open_state s2. split; reflexivity. }
  destruct H3 as (A3 & B3 & C3 & D3).
  split; [| split; [| split]].
  - eauto using no_subscribe_trans.
  - eauto using no_snapshot_trans.
  - congruence.
  - exact D3.
Qed.

End Frames.

(** *** C4: the subscribe call *)

Section SubscribeOnce.

Implicit Types (s : State) (i : Input) (inputs : list Input).

Lemma no_subscribe_once s s' :
  no_subscribe s s' -> subscribes_once s -> subscribes_once s'.
Proof.
  intros (A & B & C) [[H1 H2] | [H1 H2]]; [left | right];
    split; try congruence; auto; lia.
Qed.

Lemma listeners_no_subscribe e (ls : list nat) : forall s,
  no_subscribe s (fold_left (fun s _ => deliver e s) ls s).
Proof.
  induction ls as [| l ls IH]; intros s; simpl; [apply no_subscribe_refl |].
  eapply no_subscribe_trans; [apply deliver_no_subscribe | apply IH].
Qed.

(** The handler of a view that has not subscribed and holds its own
    unsubscriber: it subscribes at most once and deregisters itself. *)
Lemma handleStatusChange_first st0 s :
  subscribed s = 0 -> unsubscribeStatus s = true ->
  subscribes_once (handleStatusChange st0 s).
Proof.
  unfold subscribes_once, handleStatusChange, setupSubscription,
    setupTableListeners, call_unsubscribeStatus, subscribed.
  open_state s. simpl. intros H0 ->.
  destruct (Status_eqb st0 connected); simpl; [| now left].
  right. destruct act, hou; simpl; rewrite ?count_app, ?H0;
    unfold count; simpl; split; (lia || reflexivity).
Qed.

Lemma step_subscribes_once i s :
  subscribes_once s -> subscribes_once (step i s).
Proof.
  intros H. destruct i as [st0 | active | h cache | e |]; simpl.
  - destruct (Status_eqb st0 (status s)); [exact H |].
    destruct (statusListener (set_status st0 s)) eqn:Hl.
    + destruct H as [[H0 Hu] | [_ Hf]].
      * apply handleStatusChange_first.
        -- revert H0. open_state s. auto.
        -- revert Hu. open_state s. auto.
      * exfalso. revert Hl Hf. open_state s. simpl. congruence.
    + eapply no_subscribe_once; [| exact H]. frame s.
  - eapply no_subscribe_once; [| exact H]. frame s.
  - destruct (existsb _ _); [| exact H].
    eapply no_subscribe_once; [| exact H].
    eapply no_subscribe_trans; [| apply updateSnapshot_no_subscribe].
    frame s.
  - eapply no_subscribe_once; [apply listeners_no_subscribe | exact H].
  - eapply no_subscribe_once; [apply destroy_frame | exact H].
Qed.

Lemma run_subscribes_once inputs : forall s,
  subscribes_once s -> subscribes_once (run inputs s).
Proof.
  induction inputs as [| i inputs IH]; intros s H; simpl; [exact H |].
  apply IH, step_subscribes_once, H.
Qed.

Lemma construct_unconnected_subscribes_once f name pred cb st0 active hasOnUpdate :
  st0 <> connected ->
  subscribes_once (construct f name pred cb st0 active hasOnUpdate).
Proof.
  intros Hst. left. unfold construct, handleStatusChange.
  destruct st0; try congruence; simpl; split; reflexivity.
Qed.

(** X2.  A view constructed while the status is not ['connected'] issues
    the subscribe call at most once, whatever happens to it afterwards. *)
Lemma subscribes_at_most_once_when_built_unconnected
    f name pred cb st0 active hasOnUpdate inputs :
  st0 <> connected ->
  subscribed (run inputs (construct f name pred cb st0 active hasOnUpdate)) <= 1.
Proof.
  intros Hst.
  destruct (run_subscribes_once inputs _
              (construct_unconnected_subscribes_once
                 f name pred cb st0 active hasOnUpdate Hst))
    as [[H _] | [H _]]; lia.
Qed.

(** X2 at a view built disconnected that sees the connection come up, go
    down and come up again. *)
Lemma subscribes_at_most_once_witness :
  disconnected <> connected
  /\ subscribed
       (run (StatusSet connected :: Examples.reconnect)
          Examples.view_built_disconnected) <= 1.
Proof.
  split; [discriminate |].
  apply (subscribes_at_most_once_when_built_unconnected
           Examples.no_number_rendered "User" None Examples.all_callbacks
           disconnected true true (StatusSet connected :: Examples.reconnect)).
  discriminate.
Defined.

(** The subscribe call is never issued while the connection is not
    active. *)
Lemma setupSubscription_inactive s :
  isActive s = false -> setupSubscription s = s.
Proof. intros H. unfold setupSubscription. now rewrite H. Qed.

End SubscribeOnce.

(** C4 fails on a view constructed while the status store already holds
    ['connected'].  [status.subscribe] runs [handleStatusChange] before it
    returns, so the subscribe call is issued while [unsubscribeStatus] is
    still [undefined] and the status listener stays registered; when the
    status later leaves ['connected'] and comes back, the subscribe call is
    issued a second time (and a second set of table listeners is
    registered). *)
Theorem C4_subscribes_again_after_reconnect :
  subscribed Examples.view_built_connected = 1
  /\ statusListener Examples.view_built_connected = true
  /\ subscribed (run Examples.reconnect Examples.view_built_connected) = 2
  /\ log (run Examples.reconnect Examples.view_built_connected)
     = [SubscribeCall "SELECT * FROM User";
        TableOnInsert 0; TableOnDelete 0; TableOnUpdate 0;
        SubscribeCall "SELECT * FROM User";
        TableOnInsert 1; TableOnDelete 1; TableOnUpdate 1;
        StatusUnsubscribe; StatusUnsubscribe].
Proof. repeat split; vm_compute; reflexivity. Qed.

(** *** C5: the initial-snapshot callback *)

Section SnapshotOnce.

Implicit Types (s : State) (i : Input) (inputs : list Input).

Lemma no_snapshot_once s s' :
  no_snapshot s s' -> snapshot_once s -> snapshot_once s'.
Proof.
  intros (A & B & _) [H1 H2]. split; [| lia].
  intros H. rewrite A. apply H1. congruence.
Qed.

Lemma updateSnapshot_snapshot_once cache s :
  snapshot_once s -> snapshot_once (updateSnapshot cache s).
Proof.
  unfold snapshot_once, updateSnapshot, initialSnapshotHandler, snapshotsFired.
  open_state s. simpl. intros [H1 H2].
  destruct cbs as [[a b c d] |]; simpl; [destruct d, isc |]; simpl;
    rewrite ?count_app; unfold count in *; simpl;
    (split; [intros Hx; try discriminate Hx; try specialize (H1 Hx) |]);
    try (pose proof (H1 Logic.eq_refl)); lia.
Qed.

Lemma refreshPerTransaction_snapshot_once event cache s :
  snapshot_once s -> snapshot_once (refreshPerTransaction event cache s).
Proof.
  intros H. unfold refreshPerTransaction. destruct (_ || _); [| exact H].
  apply updateSnapshot_snapshot_once.
  eapply no_snapshot_once; [| exact H]. frame s.
Qed.

Lemma deliver_snapshot_once e s :
  snapshot_once s -> snapshot_once (deliver e s).
Proof.
  intros H. destruct e as [ev row cache | ev row cache | ev o n cache]; simpl.
  - unfold onInsert. destruct (filteredOut row s); [exact H |].
    apply refreshPerTransaction_snapshot_once.
    eapply no_snapshot_once; [apply call_onInsert_no_snapshot | exact H].
  - unfold onDelete. destruct (filteredOut row s); [exact H |].
    apply refreshPerTransaction_snapshot_once.
    eapply no_snapshot_once; [apply call_onDelete_no_snapshot | exact H].
  - unfold onUpdate. destruct (classifyMembership (whereClause s) o n);
      try exact H; apply refreshPerTransaction_snapshot_once;
      (eapply no_snapshot_once; [| exact H]).
    + apply call_onInsert_no_snapshot.
    + apply call_onDelete_no_snapshot.
    + apply call_onUpdate_no_snapshot.
Qed.

Lemma listeners_snapshot_once e (ls : list nat) : forall s,
  snapshot_once s -> snapshot_once (fold_left (fun s _ => deliver e s) ls s).
Proof.
  induction ls as [| l ls IH]; intros s H; simpl; [exact H |].
  apply IH, deliver_snapshot_once, H.
Qed.

Lemma handleStatusChange_no_snapshot st0 s :
  no_snapshot s (handleStatusChange st0 s).
Proof.
  unfold handleStatusChange, setupSubscription, setupTableListeners,
    call_unsubscribeStatus.
  frame s.
Qed.

Lemma step_snapshot_once i s : snapshot_once s -> snapshot_once (step i s).
Proof.
  intros H. destruct i as [st0 | active | h cache | e |]; simpl.
  - destruct (Status_eqb st0 (status s)); [exact H |].
    destruct (statusListener (set_status st0 s)).
    + eapply no_snapshot_once; [| exact H].
      eapply no_snapshot_trans; [| apply handleStatusChange_no_snapshot].
      frame s.
    + eapply no_snapshot_once; [| exact H]. frame s.
  - eapply no_snapshot_once; [| exact H]. frame s.
  - destruct (existsb _ _); [| exact H].
    apply updateSnapshot_snapshot_once.
    eapply no_snapshot_once; [| exact H]. frame s.
  - apply listeners_snapshot_once, H.
  - eapply no_snapshot_once; [apply destroy_frame | exact H].
Qed.

Lemma run_snapshot_once inputs : forall s,
  snapshot_once s -> snapshot_once (run inputs s).
Proof.
  induction inputs as [| i inputs IH]; intros s H; simpl; [exact H |].
  apply IH, step_snapshot_once, H.
Qed.

Lemma construct_snapshot_once f name pred cb st0 active hasOnUpdate :
  snapshot_once (construct f name pred cb st0 active hasOnUpdate).
Proof.
  unfold construct.
  match goal with
  | |- context [handleStatusChange st0 ?s0] =>
      pose proof (handleStatusChange_no_snapshot st0 s0) as Hh;
      assert (H0 : snapshot_once s0)
        by (unfold snapshot_once, snapshotsFired, count; simpl;
            split; [reflexivity | lia]);
      pose proof (no_snapshot_once _ _ Hh H0) as H1;
      generalize dependent (handleStatusChange st0 s0)
  end.
  intros s1 _ H1. simpl. eapply no_snapshot_once; [| exact H1]. frame s1.
Qed.

(** X1.  Over the whole life of a view the initial-snapshot callback is
    called at most once. *)
Lemma initial_snapshot_at_most_once
    f name pred cb st0 active hasOnUpdate inputs :
  snapshotsFired (run inputs (construct f name pred cb st0 active hasOnUpdate))
  <= 1.
Proof.
  apply (run_snapshot_once inputs _
           (construct_snapshot_once f name pred cb st0 active hasOnUpdate)).
Qed.

(** X4.  When the applied callback is the first to recompute, the
    initial-snapshot callback fires there, with the filtered rows of that
    moment, and the view becomes ready. *)
Lemma initial_snapshot_on_first_applied h cache s cb :
  callbacks s = Some cb -> has_onInitialSnapshot cb = true ->
  initialSnapshotCalled s = false ->
  existsb (Nat.eqb h) (liveSubscriptions s) = true ->
  log (step (Applied h cache) s)
  = (log s ++ [RowsPublished (computeSnapshot cache s);
               UserOnInitialSnapshot (computeSnapshot cache s)])%list
  /\ state (step (Applied h cache) s) = ready.
Proof.
  intros Hc Hi Hf Hl. simpl. rewrite Hl.
  unfold updateSnapshot, initialSnapshotHandler, computeSnapshot, state.
  open_state s. simpl in *. subst cbs isc. simpl. rewrite Hi. simpl.
  rewrite <- app_assoc. split; reflexivity.
Qed.

(** X4 at the first applied callback of a view filtered by
    [isActive = true]. *)
Lemma initial_snapshot_on_first_applied_witness :
  log (step (Applied 0 [Examples.alice; Examples.carol_inactive])
         Examples.active_users_view)
  = (log Examples.active_users_view
       ++ [RowsPublished [Examples.alice];
           UserOnInitialSnapshot [Examples.alice]])%list
  /\ state (step (Applied 0 [Examples.alice; Examples.carol_inactive])
              Examples.active_users_view) = ready.
Proof.
  apply (initial_snapshot_on_first_applied 0
           [Examples.alice; Examples.carol_inactive]
           Examples.active_users_view (mkCallbacks true true true true));
    reflexivity.
Defined.

End SnapshotOnce.

(** C5 fails when a row event reaches the view between the subscribe call
    and the first subscribe-applied: the table listeners are registered by
    [#setupSubscription], the event runs [#updateSnapshot], and the
    initial-snapshot callback fires there, with the rows of that moment,
    while the view is still loading.  The applied callback that follows
    publishes the rows and fires nothing. *)
Theorem C5_initial_snapshot_fires_before_applied :
  state (step Examples.early_insert Examples.view_built_connected) = loading
  /\ List.filter is_UserOnInitialSnapshot
       (log (step Examples.early_insert Examples.view_built_connected))
     = [UserOnInitialSnapshot [Examples.alice]]
  /\ state (run [Examples.early_insert; Examples.then_applied]
              Examples.view_built_connected) = ready
  /\ rows (run [Examples.early_insert; Examples.then_applied]
             Examples.view_built_connected)
     = [Examples.alice; Examples.bob]
  /\ List.filter is_UserOnInitialSnapshot
       (log (run [Examples.early_insert; Examples.then_applied]
               Examples.view_built_connected))
     = [UserOnInitialSnapshot [Examples.alice]].
Proof. repeat split; vm_compute; reflexivity. Qed.

(** *** C6: disposal *)

Section Disposal.

Implicit Types (s : State).

(** X3.  A second [destroy()] finds [#tableUnSubscribers] empty, and
    [#unsubscribe] as the first one found it: it calls
    [cancel.unsubscribe()] again when the view had subscribed, and does
    nothing otherwise. *)
Lemma destroy_twice s :
  log (destroy (destroy s))
  = (log (destroy s)
       ++ match unsubscribe s with
          | Some h => [CancelUnsubscribe h]
          | None => []
          end)%list.
Proof.
  destruct (destroy_frame s) as (_ & _ & Hu & Ht).
  generalize dependent (destroy s). intros s' Hu Ht.
  unfold destroy. rewrite Hu.
  destruct (unsubscribe s) as [h |].
  - open_state s'. simpl in Ht. subst tus. reflexivity.
  - rewrite Ht. simpl. open_state s'. simpl. now rewrite app_nil_r.
Qed.

End Disposal.

(** C6 fails on a view that has subscribed: [destroy()] empties
    [#tableUnSubscribers] but leaves [#unsubscribe] set, so a second
    [destroy()] calls [cancel.unsubscribe()] on the same handle again. *)
Theorem C6_second_destroy_cancels_again :
  log (destroy Examples.view_built_connected)
  = [SubscribeCall "SELECT * FROM User";
     TableOnInsert 0; TableOnDelete 0; TableOnUpdate 0;
     CancelUnsubscribe 0;
     TableRemoveOnInsert 0; TableRemoveOnDelete 0; TableRemoveOnUpdate 0;
     StatusUnsubscribe]
  /\ log (destroy (destroy Examples.view_built_connected))
     = (log (destroy Examples.view_built_connected)
          ++ [CancelUnsubscribe 0])%list.
Proof. split; vm_compute; reflexivity. Qed.

(** * Further properties of the code *)

Import Laws.

(** ** The builders and the evaluator *)

Section BuilderLaws.

Implicit Types (x c : Expr) (cs : list Expr) (operands : list (option Expr))
  (row : gmap string jsval).

Lemma forallb_evaluate_and cs row :
  forallb (fun c => evaluate c row) cs = evaluate (EAnd cs) row.
Proof. simpl. now destruct cs. Qed.

Lemma existsb_evaluate_or cs row :
  existsb (fun c => evaluate c row) cs = evaluate (EOr cs) row.
Proof. simpl. now destruct cs. Qed.

Lemma evaluate_collapse_and cs row :
  evaluate (collapse EAnd cs) row = forallb (fun c => evaluate c row) cs.
Proof.
  destruct cs as [| a [| b l]]; simpl; try reflexivity.
  now rewrite Bool.andb_true_r.
Qed.

Lemma evaluate_collapse_or cs row :
  evaluate (collapse EOr cs) row = existsb (fun c => evaluate c row) cs.
Proof.
  destruct cs as [| a [| b l]]; simpl; try reflexivity.
  now rewrite Bool.orb_false_r.
Qed.

Lemma forallb_and_operand o row :
  forallb (fun c => evaluate c row) (and_operand o) = operand_value row true o.
Proof.
  destruct o as [[k v | cs | cs] |]; try reflexivity.
  - unfold and_operand, operand_value. cbn [forallb]. apply Bool.andb_true_r.
  - apply forallb_evaluate_and.
  - unfold and_operand, operand_value. cbn [forallb]. apply Bool.andb_true_r.
Qed.

Lemma existsb_or_operand o row :
  existsb (fun c => evaluate c row) (or_operand o) = operand_value row false o.
Proof.
  destruct o as [[k v | cs | cs] |]; try reflexivity.
  - unfold or_operand, operand_value. cbn [existsb]. apply Bool.orb_false_r.
  - unfold or_operand, operand_value. cbn [existsb]. apply Bool.orb_false_r.
  - apply existsb_evaluate_or.
Qed.

Lemma forallb_flat_map {A B} (p : B -> bool) (g : A -> list B) (l : list A) :
  forallb p (flat_map g l) = forallb (fun a => forallb p (g a)) l.
Proof.
  induction l as [| a l IH]; simpl; [reflexivity |].
  now rewrite forallb_app, IH.
Qed.

Lemma existsb_flat_map {A B} (p : B -> bool) (g : A -> list B) (l : list A) :
  existsb p (flat_map g l) = existsb (fun a => existsb p (g a)) l.
Proof.
  induction l as [| a l IH]; simpl; [reflexivity |].
  now rewrite existsb_app, IH.
Qed.

End BuilderLaws.

(** X5.  The builders preserve meaning: [and(...operands)] evaluates to
    the conjunction of its operands and [or(...operands)] to their
    disjunction, a falsy operand counting as true under [and] and as false
    under [or], whatever flattening and collapsing took place. *)
Theorem builders_evaluate_as_connectives :
  forall (operands : list (option Expr)) (row : gmap string jsval),
    evaluate (and operands) row
    = forallb (operand_value row true) operands
    /\ evaluate (or operands) row
       = existsb (operand_value row false) operands.
Proof.
  intros operands row. split.
  - rewrite and_collapse, evaluate_collapse_and, forallb_flat_map.
    induction operands as [| o l IH]; simpl; [reflexivity |].
    now rewrite forallb_and_operand, IH.
  - rewrite or_collapse, evaluate_collapse_or, existsb_flat_map.
    induction operands as [| o l IH]; simpl; [reflexivity |].
    now rewrite existsb_or_operand, IH.
Qed.

Section NormalForms.

Implicit Types (x c : Expr) (cs : list Expr) (operands : list (option Expr)).

Lemma normal_and_children cs :
  normal (EAnd cs) = true ->
  forallb (fun c => negb (is_and c)) cs = true /\ forallb normal cs = true.
Proof.
  simpl. intros H. apply Bool.andb_true_iff in H. destruct H as [H H2].
  apply Bool.andb_true_iff in H. tauto.
Qed.

Lemma normal_or_children cs :
  normal (EOr cs) = true ->
  forallb (fun c => negb (is_or c)) cs = true /\ forallb normal cs = true.
Proof.
  simpl. intros H. apply Bool.andb_true_iff in H. destruct H as [H H2].
  apply Bool.andb_true_iff in H. tauto.
Qed.

(** The survivors of an AND call over normal operands are normal, and
    none of them is an AND node. *)
Lemma and_survivors_normal operands :
  (forall x, In (Some x) operands -> normal x = true) ->
  forallb (fun c => negb (is_and c)) (flat_map and_operand operands) = true
  /\ forallb normal (flat_map and_operand operands) = true.
Proof.
  induction operands as [| o rest IH]; intros H; [now split |].
  destruct IH as [IH1 IH2]; [intros x Hx; apply H; now right |].
  simpl. rewrite !forallb_app, IH1, IH2, !Bool.andb_true_r.
  destruct o as [[k v | cs | cs] |]; simpl; try (now split).
  - apply normal_and_children, H. now left.
  - split; [reflexivity |]. rewrite Bool.andb_true_r.
    apply (H (EOr cs)). now left.
Qed.

Lemma or_survivors_normal operands :
  (forall x, In (Some x) operands -> normal x = true) ->
  forallb (fun c => negb (is_or c)) (flat_map or_operand operands) = true
  /\ forallb normal (flat_map or_operand operands) = true.
Proof.
  induction operands as [| o rest IH]; intros H; [now split |].
  destruct IH as [IH1 IH2]; [intros x Hx; apply H; now right |].
  simpl. rewrite !forallb_app, IH1, IH2, !Bool.andb_true_r.
  destruct o as [[k v | cs | cs] |]; simpl; try (now split).
  - split; [reflexivity |]. rewrite Bool.andb_true_r.
    apply (H (EAnd cs)). now left.
  - apply normal_or_children, H. now left.
Qed.

Lemma normal_and operands :
  (forall x, In (Some x) operands -> normal x = true) ->
  normal (and operands) = true.
Proof.
  intros H. rewrite and_collapse.
  destruct (and_survivors_normal operands H) as [H1 H2].
  destruct (flat_map and_operand operands) as [| a [| b l]]; simpl in *.
  - reflexivity.
  - apply Bool.andb_true_iff in H2. tauto.
  - now rewrite H1, H2.
Qed.

Lemma normal_or operands :
  (forall x, In (Some x) operands -> normal x = true) ->
  normal (or operands) = true.
Proof.
  intros H. rewrite or_collapse.
  destruct (or_survivors_normal operands H) as [H1 H2].
  destruct (flat_map or_operand operands) as [| a [| b l]]; simpl in *.
  - reflexivity.
  - apply Bool.andb_true_iff in H2. tauto.
  - now rewrite H1, H2.
Qed.

Lemma built_normal x : built x -> normal x = true.
Proof.
  induction 1 as [k v | operands _ IH | operands _ IH].
  - reflexivity.
  - now apply normal_and.
  - now apply normal_or.
Qed.

(** An AND call over the result of an AND call sees the inner call's
    survivors, provided none of them is an AND node. *)
Lemma and_operand_of_and operands :
  forallb (fun c => negb (is_and c)) (flat_map and_operand operands) = true ->
  and_operand (Some (and operands)) = flat_map and_operand operands.
Proof.
  rewrite and_collapse.
  destruct (flat_map and_operand operands) as [| a [| b l]]; simpl;
    try reflexivity.
  destruct a; simpl; intros H; try reflexivity; discriminate.
Qed.

Lemma or_operand_of_or operands :
  forallb (fun c => negb (is_or c)) (flat_map or_operand operands) = true ->
  or_operand (Some (or operands)) = flat_map or_operand operands.
Proof.
  rewrite or_collapse.
  destruct (flat_map or_operand operands) as [| a [| b l]]; simpl;
    try reflexivity.
  destruct a; simpl; intros H; try reflexivity; discriminate.
Qed.

Lemma flat_map_concat {A B} (g : A -> list B) (ls : list (list A)) :
  flat_map g (concat ls) = flat_map (flat_map g) ls.
Proof.
  induction ls as [| l ls IH]; simpl; [reflexivity |].
  now rewrite flat_map_app, IH.
Qed.

End NormalForms.

(** X6.  The builders keep the data-model invariant: when every present
    operand is normal (no AND directly inside an AND, no OR directly inside
    an OR, no single-child node), so are [and(...operands)] and
    [or(...operands)]; hence every expression built with [eq], [and] and
    [or] is normal. *)
Theorem builders_return_normal_expressions :
  (forall operands,
      (forall x, In (Some x) operands -> normal x = true) ->
      normal (and operands) = true /\ normal (or operands) = true) /\
  (forall key value, normal (eq key value) = true) /\
  (forall x, built x -> normal x = true).
Proof.
  split; [| split].
  - intros operands H. split; [now apply normal_and | now apply normal_or].
  - reflexivity.
  - apply built_normal.
Qed.

(** X6 at the predicate of the rendering example. *)
Lemma builders_return_normal_expressions_witness :
  normal Examples.admin_in_eng_or_product = true.
Proof.
  apply (proj2 (proj2 builders_return_normal_expressions)).
  exact built_admin_in_eng_or_product.
Defined.

(** X7.  Nested calls of one builder amount to a single flat call: for
    operand lists of built expressions,
    [and(and(...l1), ..., and(...ln))] is [and(...l1, ..., ...ln)], and the
    same for [or]. *)
Theorem nested_builder_calls_flatten :
  forall ls : list (list (option Expr)),
    (forall l x, In l ls -> In (Some x) l -> built x) ->
    and (List.map (fun l => Some (and l)) ls) = and (concat ls)
    /\ or (List.map (fun l => Some (or l)) ls) = or (concat ls).
Proof.
  intros ls H. split.
  - rewrite !and_collapse, flat_map_concat. f_equal.
    induction ls as [| l ls IH]; simpl; [reflexivity |].
    rewrite IH by (intros l' x Hl Hx; apply (H l' x); [now right | exact Hx]).
    f_equal. apply and_operand_of_and, and_survivors_normal.
    intros x Hx. apply built_normal, (H l x); [now left | exact Hx].
  - rewrite !or_collapse, flat_map_concat. f_equal.
    induction ls as [| l ls IH]; simpl; [reflexivity |].
    rewrite IH by (intros l' x Hl Hx; apply (H l' x); [now right | exact Hx]).
    f_equal. apply or_operand_of_or, or_survivors_normal.
    intros x Hx. apply built_normal, (H l x); [now left | exact Hx].
Qed.

(** X7 at [and(and(eq('a',1), eq('b',2)), and(eq('c',3)))]. *)
Lemma nested_builder_calls_flatten_witness :
  and [Some (and [Some (eq "a" (VNumber 1%float));
                  Some (eq "b" (VNumber 2%float))]);
       Some (and [Some (eq "c" (VNumber 3%float))])]
  = and [Some (eq "a" (VNumber 1%float)); Some (eq "b" (VNumber 2%float));
         Some (eq "c" (VNumber 3%float))].
Proof.
  refine (proj1 (nested_builder_calls_flatten
                   [[Some (eq "a" (VNumber 1%float));
                     Some (eq "b" (VNumber 2%float))];
                    [Some (eq "c" (VNumber 3%float))]] _)).
  intros l x [<- | [<- | []]] Hx; simpl in Hx;
    repeat (destruct Hx as [Hx | Hx]; [inversion Hx; apply built_eq |]);
    destruct Hx.
Defined.

(** ** What the evaluator reads *)

Section Columns.

Implicit Types (e c : Expr) (cs : list Expr).

Lemma Expr_nested_ind (P : Expr -> Prop) :
  (forall key value, P (EEq key value)) ->
  (forall cs, Forall P cs -> P (EAnd cs)) ->
  (forall cs, Forall P cs -> P (EOr cs)) ->
  forall e, P e.
Proof.
  intros Heq Hand Hor. fix IH 1. intros [key value | cs | cs].
  - apply Heq.
  - apply Hand. induction cs as [| c cs IHcs]; constructor;
      [apply IH | exact IHcs].
  - apply Hor. induction cs as [| c cs IHcs]; constructor;
      [apply IH | exact IHcs].
Qed.

Lemma evaluate_children_agree cs (r1 r2 : gmap string jsval) :
  Forall (fun c =>
            (forall key, In key (columns c) -> get r1 key = get r2 key) ->
            evaluate c r1 = evaluate c r2) cs ->
  (forall key, In key (flat_map columns cs) -> get r1 key = get r2 key) ->
  List.map (fun c => evaluate c r1) cs = List.map (fun c => evaluate c r2) cs.
Proof.
  induction 1 as [| c cs Hc _ IH]; intros Hk; simpl; [reflexivity |].
  f_equal.
  - apply Hc. intros key Hin. apply Hk. simpl. apply in_or_app. now left.
  - apply IH. intros key Hin. apply Hk. simpl. apply in_or_app. now right.
Qed.

Lemma forallb_map {A} (p : A -> bool) (l : list A) :
  forallb p l = forallb id (List.map p l).
Proof. induction l as [| a l IH]; simpl; [reflexivity | now rewrite IH]. Qed.

Lemma existsb_map {A} (p : A -> bool) (l : list A) :
  existsb p l = existsb id (List.map p l).
Proof. induction l as [| a l IH]; simpl; [reflexivity | now rewrite IH]. Qed.

Lemma evaluate_agrees e : forall r1 r2 : gmap string jsval,
  (forall key, In key (columns e) -> get r1 key = get r2 key) ->
  evaluate e r1 = evaluate e r2.
Proof.
  induction e as [key value | cs IH | cs IH] using Expr_nested_ind;
    intros r1 r2 Hk.
  - simpl. rewrite (Hk key) by (simpl; now left). reflexivity.
  - simpl. f_equal.
    rewrite (forallb_map (fun c => evaluate c r1)),
      (forallb_map (fun c => evaluate c r2)).
    f_equal. apply evaluate_children_agree; [| exact Hk].
    eapply List.Forall_impl; [| exact IH]. intros c Hc. apply Hc.
  - simpl. f_equal.
    rewrite (existsb_map (fun c => evaluate c r1)),
      (existsb_map (fun c => evaluate c r2)).
    f_equal. apply evaluate_children_agree; [| exact Hk].
    eapply List.Forall_impl; [| exact IH]. intros c Hc. apply Hc.
Qed.

End Columns.

(** X8.  [evaluate] reads a row only at the columns named by the leaves of
    the expression: two rows that hold the same values at those columns
    evaluate alike.  So an update that leaves the predicate's columns as
    they were is classified [stayIn] or [stayOut], never [enter] or
    [leave]. *)
Theorem evaluate_reads_only_its_columns :
  forall (w : Expr) (r1 r2 : gmap string jsval),
    (forall key, In key (columns w) -> get r1 key = get r2 key) ->
    evaluate w r1 = evaluate w r2
    /\ classifyMembership (Some w) r1 r2
       = (if evaluate w r1 then stayIn else stayOut).
Proof.
  intros w r1 r2 H. pose proof (evaluate_agrees w r1 r2 H) as Heq.
  split; [exact Heq |].
  unfold classifyMembership. rewrite <- Heq.
  now destruct (evaluate w r1).
Qed.

(** X8 at an update of a user's name under the predicate
    [isActive = true]. *)
Lemma evaluate_reads_only_its_columns_witness :
  classifyMembership (Some Examples.is_active)
    (<[ "name" := JString "Al" ]> Examples.alice)
    (<[ "name" := JString "Alice" ]> Examples.alice)
  = stayIn.
Proof.
  refine (proj2 (evaluate_reads_only_its_columns Examples.is_active
                   (<[ "name" := JString "Al" ]> Examples.alice)
                   (<[ "name" := JString "Alice" ]> Examples.alice) _)).
  intros key [<- | []]. reflexivity.
Defined.

(** ** Quoting in the query text *)

Section Quoting.

Implicit Types (s : string) (c : ascii).

Lemma append_empty_l s : "" +:+ s = s.
Proof. reflexivity. Qed.

Lemma read_quoted_body_replace_all c s :
  read_quoted_body c (replace_all c (String c (String c "")) s +:+ String c "")
  = Some s.
Proof.
  induction s as [| a s IH]; simpl.
  - now rewrite Ascii.eqb_refl.
  - destruct (Ascii.eqb a c) eqn:E.
    + apply Ascii.eqb_eq in E. subst a. simpl.
      rewrite !Ascii.eqb_refl, append_empty_l. now rewrite IH.
    + simpl. rewrite E. now rewrite IH.
Qed.

Lemma read_quoted_quote c s :
  read_quoted c
    (String c (replace_all c (String c (String c "")) s +:+ String c ""))
  = Some s.
Proof. simpl. rewrite Ascii.eqb_refl. apply read_quoted_body_replace_all. Qed.

Lemma quoted_ident_not_plain s :
  is_plain_ident (String quote_char s) = false.
Proof. reflexivity. Qed.

End Quoting.

(** X9.  A string literal is rendered so that it can be read back: the
    text [formatValue] produces for a string is one single-quoted literal
    whose content, with doubled apostrophes undoubled, is the string
    itself, whatever apostrophes the string holds.  Two different strings
    never render alike, and no string renders like a boolean. *)
Theorem formatValue_string_round_trip :
  forall (f : float -> string) (s : string),
    read_string_literal (formatValue f (VString s)) = Some s
    /\ (forall s', formatValue f (VString s) = formatValue f (VString s')
                   -> s = s')
    /\ (forall b, formatValue f (VString s) <> formatValue f (VBoolean b)).
Proof.
  intros f s.
  assert (Hrt : forall t, read_string_literal (formatValue f (VString t))
                          = Some t).
  { intros t. unfold read_string_literal, formatValue.
    apply read_quoted_quote. }
  split; [apply Hrt | split].
  - intros s' H. pose proof (Hrt s) as H1. rewrite H, Hrt in H1.
    now inversion H1.
  - intros [|]; simpl; discriminate.
Qed.

(** X9 at a name with an apostrophe. *)
Lemma formatValue_string_round_trip_witness :
  read_string_literal "'O''Neil'" = Some "O'Neil".
Proof.
  exact (proj1 (formatValue_string_round_trip
                  Examples.no_number_rendered "O'Neil")).
Defined.

(** X10.  An identifier is rendered so that it can be read back: a name
    matching [[A-Za-z_][A-Za-z0-9_]*] is rendered as it is, any other name
    (the empty name included) as one double-quoted identifier whose
    content, undoubled, is the name.  Two different column names never
    render alike. *)
Theorem escapeIdent_round_trip :
  forall id : string,
    read_ident (escapeIdent id) = Some id
    /\ (is_plain_ident id = true -> escapeIdent id = id)
    /\ (forall id', escapeIdent id = escapeIdent id' -> id = id').
Proof.
  assert (Hrt : forall t, read_ident (escapeIdent t) = Some t).
  { intros t. unfold escapeIdent, read_ident.
    destruct (is_plain_ident t) eqn:E.
    - now rewrite E.
    - rewrite quoted_ident_not_plain. apply read_quoted_quote. }
  intros id. split; [apply Hrt | split].
  - intros H. unfold escapeIdent. now rewrite H.
  - intros id' H. pose proof (Hrt id) as H1. rewrite H, Hrt in H1.
    now inversion H1.
Qed.

(** X10 at a plain column name. *)
Lemma escapeIdent_round_trip_witness :
  is_plain_ident "is_active2" = true /\ escapeIdent "is_active2" = "is_active2".
Proof.
  split; [reflexivity |].
  apply (proj1 (proj2 (escapeIdent_round_trip "is_active2"))). reflexivity.
Defined.

(** Names with a space, a quote, a leading digit, or no character at all
    are quoted. *)
Example escapeIdent_examples :
  escapeIdent "first name" = String quote_char ("first name" +:+ String quote_char "")
  /\ escapeIdent "2fa" = String quote_char ("2fa" +:+ String quote_char "")
  /\ escapeIdent "" = String quote_char (String quote_char "")
  /\ formatValue Examples.no_number_rendered (VString "O'Neil") = "'O''Neil'".
Proof. repeat split. Qed.

(** X11.  Among the expressions built with [eq], [and] and [or], exactly
    the empty nodes [and()] and [or()] render to the empty text; every
    other one renders to a text that is not empty. *)
Theorem built_renders_empty_iff_empty_node :
  forall (f : float -> string) (x : Expr),
    built x ->
    (toString f x = "" <-> x = EAnd [] \/ x = EOr []).
Proof.
  intros f x Hb. apply built_collapsed in Hb.
  destruct x as [key value | cs | cs].
  - split; [| intros [H | H]; discriminate H].
    intros H. apply (f_equal String.length) in H.
    simpl in H. rewrite !length_append in H. simpl in H. lia.
  - destruct cs as [| a [| b cs]]; [| simpl in Hb; discriminate |].
    + split; [now left | reflexivity].
    + split; [| intros [H | H]; discriminate H].
      rewrite (toString_and_two f (a :: b :: cs)) by (simpl; lia).
      intros H. discriminate H.
  - destruct cs as [| a [| b cs]]; [| simpl in Hb; discriminate |].
    + split; [now right | reflexivity].
    + split; [| intros [H | H]; discriminate H].
      rewrite (toString_or_two f (a :: b :: cs)) by (simpl; lia).
      intros H. discriminate H.
Qed.

(** X11 at [or()] and at the rendering example. *)
Lemma built_renders_empty_iff_empty_node_witness :
  toString Examples.no_number_rendered (or []) = ""
  /\ toString Examples.no_number_rendered Examples.admin_in_eng_or_product
     <> "".
Proof.
  split.
  - apply (built_renders_empty_iff_empty_node _ (or [])).
    + apply built_or. intros x [].
    + now right.
  - intros H.
    apply (built_renders_empty_iff_empty_node _ _
             built_admin_in_eng_or_product) in H.
    destruct H as [H | H]; discriminate H.
Defined.

(** ** The table listeners *)

Section ListenerEffects.

Implicit Types (s : State) (e : RawEvent).

Lemma filter_all {A} (l : list A) : List.filter (fun _ => true) l = l.
Proof. induction l as [| a l IH]; simpl; [reflexivity | now rewrite IH]. Qed.

Lemma computeSnapshot_passes cache s :
  computeSnapshot cache s = List.filter (passes s) cache.
Proof.
  unfold computeSnapshot, passes. destruct (whereClause s); [reflexivity |].
  symmetry. apply filter_all.
Qed.

Lemma refreshPerTransaction_log event cache s :
  log (refreshPerTransaction event cache s)
  = (log s
       ++ if recomputes event (latestTransactionEvent s)
          then RowsPublished (List.filter (passes s) cache)
                 :: (if registered has_onInitialSnapshot s
                        && negb (initialSnapshotCalled s)
                     then [UserOnInitialSnapshot
                             (List.filter (passes s) cache)]
                     else [])
          else [])%list.
Proof.
  rewrite <- computeSnapshot_passes.
  unfold refreshPerTransaction, recomputes, updateSnapshot,
    initialSnapshotHandler, computeSnapshot, registered.
  open_state s. simpl.
  destruct (negb (strict_equals event lte) || negb (truthy lte)); simpl;
    [| now rewrite app_nil_r].
  destruct cbs as [[a b c d] |]; simpl; [destruct d, isc |]; simpl;
    rewrite <- ?app_assoc; reflexivity.
Qed.

Lemma call_onInsert_log row s :
  log (call_onInsert row s)
  = (log s ++ if registered has_onInsert s then [UserOnInsert row] else [])%list.
Proof.
  unfold call_onInsert, registered. open_state s. simpl.
  destruct cbs as [[a b c d] |]; simpl; [destruct a |]; simpl;
    now rewrite ?app_nil_r.
Qed.

Lemma call_onDelete_log row s :
  log (call_onDelete row s)
  = (log s ++ if registered has_onDelete s then [UserOnDelete row] else [])%list.
Proof.
  unfold call_onDelete, registered. open_state s. simpl.
  destruct cbs as [[a b c d] |]; simpl; [destruct b |]; simpl;
    now rewrite ?app_nil_r.
Qed.

Lemma call_onUpdate_log o n s :
  log (call_onUpdate o n s)
  = (log s ++ if registered has_onUpdate s then [UserOnUpdate o n] else [])%list.
Proof.
  unfold call_onUpdate, registered. open_state s. simpl.
  destruct cbs as [[a b c d] |]; simpl; [destruct c |]; simpl;
    now rewrite ?app_nil_r.
Qed.

(** The tail of a listener after the user callback has been called. *)
Lemma refresh_after_call_log event cache s s1 added :
  log s1 = (log s ++ added)%list ->
  only_notified s s1 -> no_snapshot s s1 ->
  log (refreshPerTransaction event cache s1)
  = (log s ++ added
       ++ if recomputes event (latestTransactionEvent s)
          then RowsPublished (List.filter (passes s) cache)
                 :: (if registered has_onInitialSnapshot s
                        && negb (initialSnapshotCalled s)
                     then [UserOnInitialSnapshot
                             (List.filter (passes s) cache)]
                     else [])
          else [])%list.
Proof.
  intros Hlog (Hw & Hc & Hl & _) (_ & Hi & _).
  rewrite refreshPerTransaction_log, Hlog, Hl, Hi, <- app_assoc.
  unfold passes, registered. now rewrite Hw, Hc.
Qed.

Lemma filteredOut_passes row s : filteredOut row s = negb (passes s row).
Proof. unfold filteredOut, passes. now destruct (whereClause s). Qed.

Lemma classifyMembership_passes o n s :
  classifyMembership (whereClause s) o n
  = match passes s o, passes s n with
    | true, true => stayIn
    | true, false => leave
    | false, true => enter
    | false, false => stayOut
    end.
Proof.
  unfold classifyMembership, passes. destruct (whereClause s) as [w |];
    [| reflexivity].
  now destruct (evaluate w o), (evaluate w n).
Qed.

(** What a listener run adds to the log: the notification, then the
    recomputation. *)
Lemma deliver_log e s :
  log (deliver e s) = (log s ++ notification e s ++ refreshed e s)%list.
Proof.
  destruct e as [ev row cache | ev row cache | ev o n cache];
    unfold deliver, notification, refreshed, reachesDispatch, transactionOf,
      cacheOf.
  - unfold onInsert. rewrite filteredOut_passes.
    destruct (passes s row); simpl; [| now rewrite app_nil_r].
    apply refresh_after_call_log;
      [apply call_onInsert_log | apply call_onInsert_notifies
      | apply call_onInsert_no_snapshot].
  - unfold onDelete. rewrite filteredOut_passes.
    destruct (passes s row); simpl; [| now rewrite app_nil_r].
    apply refresh_after_call_log;
      [apply call_onDelete_log | apply call_onDelete_notifies
      | apply call_onDelete_no_snapshot].
  - unfold onUpdate. rewrite classifyMembership_passes.
    destruct (passes s o), (passes s n); simpl; try (now rewrite app_nil_r);
      apply refresh_after_call_log;
      first [apply call_onInsert_log | apply call_onDelete_log
            | apply call_onUpdate_log | apply call_onInsert_notifies
            | apply call_onDelete_notifies | apply call_onUpdate_notifies
            | apply call_onInsert_no_snapshot
            | apply call_onDelete_no_snapshot
            | apply call_onUpdate_no_snapshot].
Qed.

Lemma deliver_log_user e s :
  exists added,
    log (deliver e s) = (log s ++ added)%list
    /\ Forall (fun x => is_user_effect x = true) added.
Proof.
  exists (notification e s ++ refreshed e s)%list.
  split; [apply deliver_log |].
  apply Forall_app. split.
  - unfold notification. destruct e; split_cases; repeat constructor.
  - unfold refreshed. split_cases; repeat constructor.
Qed.

End ListenerEffects.

(** X12.  A listener run reports a raw event to the caller as the derived
    event of the view, and only then recomputes.  A raw insert or delete
    is passed to [onInsert] / [onDelete] when its row belongs to the view
    and is ignored otherwise; a raw update is passed to [onDelete(old)]
    when the row leaves the view, to [onInsert(new)] when it enters, to
    [onUpdate(old, new)] when it stays in, and is ignored when it stays
    out.  After that call the rows are republished (and handed to the
    pending initial-snapshot callback) if the transaction test asks for
    it; nothing else is called. *)
Theorem listener_notifies_then_recomputes :
  forall (e : RawEvent) (s : State),
    log (deliver e s) = (log s ++ notification e s ++ refreshed e s)%list
    /\ (reachesDispatch e s = false -> deliver e s = s)
    /\ (refreshed e s <> [] ->
        rows (deliver e s) = List.filter (passes s) (cacheOf e)).
Proof.
  intros e s. split; [apply deliver_log | split].
  - apply deliver_filtered.
  - unfold refreshed.
    destruct (reachesDispatch e s) eqn:Hre; simpl; [| congruence].
    destruct (recomputes _ _) eqn:Hfire; [| congruence].
    intros _. destruct (deliver_spec e s Hre) as (_ & _ & _ & _ & Hr).
    rewrite Hr by exact Hfire. apply computeSnapshot_passes.
Qed.

(** X12 at the update that deactivates a user, seen by the view of active
    users: [onDelete] gets the old row, and the republished rows no longer
    hold it. *)
Lemma listener_notifies_then_recomputes_witness :
  log (deliver (RawUpdate Examples.tx1 Examples.alice Examples.carol_inactive
                  [Examples.carol_inactive; Examples.bob])
         Examples.active_users_view)
  = (log Examples.active_users_view
       ++ [UserOnDelete Examples.alice;
           RowsPublished [Examples.bob];
           UserOnInitialSnapshot [Examples.bob]])%list.
Proof.
  exact (proj1 (listener_notifies_then_recomputes
                  (RawUpdate Examples.tx1 Examples.alice
                     Examples.carol_inactive
                     [Examples.carol_inactive; Examples.bob])
                  Examples.active_users_view)).
Defined.

(** ** What each operation leaves alone *)

Section EngineFrames.

Implicit Types (s : State) (e : RawEvent) (c : Cleanup).

Ltac fields s :=
  open_state s; unfold same_config, same_wiring; simpl; split_cases;
  repeat split; reflexivity.

Lemma same_config_refl s : same_config s s.
Proof. repeat split. Qed.

Lemma same_config_trans s1 s2 s3 :
  same_config s1 s2 -> same_config s2 s3 -> same_config s1 s3.
Proof.
  intros (A1 & A2 & A3 & A4 & A5) (B1 & B2 & B3 & B4 & B5).
  repeat split; congruence.
Qed.

Lemma same_wiring_refl s : same_wiring s s.
Proof. repeat split. Qed.

Lemma same_wiring_trans s1 s2 s3 :
  same_wiring s1 s2 -> same_wiring s2 s3 -> same_wiring s1 s3.
Proof.
  unfold same_wiring. intros H1 H2.
  repeat match goal with H : _ /\ _ |- _ => destruct H end.
  repeat split; congruence.
Qed.

Lemma updateSnapshot_frames cache s :
  same_config s (updateSnapshot cache s)
  /\ same_wiring s (updateSnapshot cache s).
Proof. unfold updateSnapshot, initialSnapshotHandler. split; fields s. Qed.

Lemma call_onInsert_frames row s :
  same_config s (call_onInsert row s) /\ same_wiring s (call_onInsert row s).
Proof. unfold call_onInsert. split; fields s. Qed.

Lemma call_onDelete_frames row s :
  same_config s (call_onDelete row s) /\ same_wiring s (call_onDelete row s).
Proof. unfold call_onDelete. split; fields s. Qed.

Lemma call_onUpdate_frames o n s :
  same_config s (call_onUpdate o n s)
  /\ same_wiring s (call_onUpdate o n s).
Proof. unfold call_onUpdate. split; fields s. Qed.

Lemma frames_trans s1 s2 s3 :
  same_config s1 s2 /\ same_wiring s1 s2 ->
  same_config s2 s3 /\ same_wiring s2 s3 ->
  same_config s1 s3 /\ same_wiring s1 s3.
Proof.
  intros [A B] [A' B'].
  split; [eapply same_config_trans | eapply same_wiring_trans]; eassumption.
Qed.

Lemma refreshPerTransaction_frames event cache s :
  same_config s (refreshPerTransaction event cache s)
  /\ same_wiring s (refreshPerTransaction event cache s).
Proof.
  unfold refreshPerTransaction. destruct (_ || _).
  - eapply frames_trans; [| apply updateSnapshot_frames]. split; fields s.
  - split; [apply same_config_refl | apply same_wiring_refl].
Qed.

Lemma deliver_frames e s :
  same_config s (deliver e s) /\ same_wiring s (deliver e s).
Proof.
  assert (Hrefl : same_config s s /\ same_wiring s s)
    by (split; [apply same_config_refl | apply same_wiring_refl]).
  destruct e as [ev row cache | ev row cache | ev o n cache]; simpl.
  - unfold onInsert. destruct (filteredOut row s); [exact Hrefl |].
    eapply frames_trans;
      [apply call_onInsert_frames | apply refreshPerTransaction_frames].
  - unfold onDelete. destruct (filteredOut row s); [exact Hrefl |].
    eapply frames_trans;
      [apply call_onDelete_frames | apply refreshPerTransaction_frames].
  - unfold onUpdate. destruct (classifyMembership (whereClause s) o n);
      try exact Hrefl;
      (eapply frames_trans; [| apply refreshPerTransaction_frames]).
    + apply call_onInsert_frames.
    + apply call_onDelete_frames.
    + apply call_onUpdate_frames.
Qed.

Lemma listeners_frames e (ls : list nat) : forall s,
  same_config s (fold_left (fun s _ => deliver e s) ls s)
  /\ same_wiring s (fold_left (fun s _ => deliver e s) ls s).
Proof.
  induction ls as [| l ls IH]; intros s; simpl.
  - split; [apply same_config_refl | apply same_wiring_refl].
  - destruct (deliver_frames e s) as [A B].
    destruct (IH (deliver e s)) as [A' B'].
    split; [eapply same_config_trans | eapply same_wiring_trans]; eassumption.
Qed.

Lemma run_cleanup_config c s : same_config s (run_cleanup c s).
Proof. destruct c; unfold run_cleanup, call_unsubscribeStatus; fields s. Qed.

Lemma cleanups_config (cs : list Cleanup) : forall s,
  same_config s (fold_left (fun s c => run_cleanup c s) cs s).
Proof.
  induction cs as [| c cs IH]; intros s; simpl; [apply same_config_refl |].
  eapply same_config_trans; [apply run_cleanup_config | apply IH].
Qed.

Lemma destroy_config s : same_config s (destroy s).
Proof.
  unfold destroy.
  set (s1 := match unsubscribe s with Some h => _ | None => s end).
  assert (H1 : same_config s s1).
  { subst s1. destruct (unsubscribe s); [fields s | apply same_config_refl]. }
  pose proof (cleanups_config (tableUnSubscribers s1) s1) as H2.
  set (s2 := fold_left _ _ _) in *.
  assert (H3 : same_config s2 (set_tableUnSubscribers [] s2))
    by (clearbody s2; clear; fields s2).
  eauto using same_config_trans.
Qed.

Lemma handleStatusChange_config st0 s :
  same_config s (handleStatusChange st0 s).
Proof.
  unfold handleStatusChange, setupSubscription, setupTableListeners,
    call_unsubscribeStatus.
  fields s.
Qed.

Lemma step_config i s : same_config s (step i s).
Proof.
  destruct i as [st0 | active | h cache | e |]; simpl.
  - destruct (Status_eqb st0 (status s)); [apply same_config_refl |].
    destruct (statusListener (set_status st0 s)).
    + eapply same_config_trans; [| apply handleStatusChange_config].
      fields s.
    + fields s.
  - fields s.
  - destruct (existsb _ _); [| apply same_config_refl].
    eapply same_config_trans; [| apply updateSnapshot_frames]. fields s.
  - apply listeners_frames.
  - apply destroy_config.
Qed.

Lemma run_config inputs : forall s, same_config s (run inputs s).
Proof.
  induction inputs as [| i inputs IH]; intros s; simpl;
    [apply same_config_refl |].
  eapply same_config_trans; [apply step_config | apply IH].
Qed.

End EngineFrames.

(** ** Which input causes which call *)

Section Causes.

Implicit Types (s : State) (e : RawEvent) (c : Cleanup) (i : Input).

Ltac log_of s :=
  open_state s; simpl; split_cases;
  first [ eexists; split;
          [ rewrite <- ?app_assoc; simpl; reflexivity
          | repeat constructor ]
        | exists []; split; [now rewrite app_nil_r | constructor] ].

Lemma added_trans (P : Effect -> Prop) (l0 l1 l2 : list Effect) :
  (exists a, l1 = (l0 ++ a)%list /\ Forall P a) ->
  (exists a, l2 = (l1 ++ a)%list /\ Forall P a) ->
  exists a, l2 = (l0 ++ a)%list /\ Forall P a.
Proof.
  intros (a & -> & Ha) (b & -> & Hb). exists (a ++ b)%list.
  split; [now rewrite app_assoc | now apply Forall_app].
Qed.

Lemma added_refl (P : Effect -> Prop) (l : list Effect) :
  exists a, l = (l ++ a)%list /\ Forall P a.
Proof. exists []. split; [now rewrite app_nil_r | constructor]. Qed.

Lemma handleStatusChange_added st0 s :
  exists added,
    log (handleStatusChange st0 s) = (log s ++ added)%list
    /\ Forall (is_setup_effect (query s)) added.
Proof.
  unfold handleStatusChange, setupSubscription, setupTableListeners,
    call_unsubscribeStatus.
  log_of s.
Qed.

Lemma updateSnapshot_added cache s :
  exists added,
    log (updateSnapshot cache s) = (log s ++ added)%list
    /\ Forall (fun x => is_user_effect x = true) added.
Proof. unfold updateSnapshot, initialSnapshotHandler. log_of s. Qed.

Lemma listeners_added e (ls : list nat) : forall s,
  exists added,
    log (fold_left (fun s _ => deliver e s) ls s) = (log s ++ added)%list
    /\ Forall (fun x => is_user_effect x = true) added.
Proof.
  induction ls as [| l ls IH]; intros s; simpl; [apply added_refl |].
  eapply added_trans; [apply deliver_log_user | apply IH].
Qed.

Lemma run_cleanup_added c s :
  exists added,
    log (run_cleanup c s) = (log s ++ added)%list
    /\ Forall (fun x => is_teardown_effect x = true) added.
Proof. destruct c; unfold run_cleanup, call_unsubscribeStatus; log_of s. Qed.

Lemma cleanups_added (cs : list Cleanup) : forall s,
  exists added,
    log (fold_left (fun s c => run_cleanup c s) cs s) = (log s ++ added)%list
    /\ Forall (fun x => is_teardown_effect x = true) added.
Proof.
  induction cs as [| c cs IH]; intros s; simpl; [apply added_refl |].
  eapply added_trans; [apply run_cleanup_added | apply IH].
Qed.

Lemma destroy_added s :
  exists added,
    log (destroy s) = (log s ++ added)%list
    /\ Forall (fun x => is_teardown_effect x = true) added.
Proof.
  unfold destroy.
  set (s1 := match unsubscribe s with Some h => _ | None => s end).
  assert (H1 : exists a, log s1 = (log s ++ a)%list
                         /\ Forall (fun x => is_teardown_effect x = true) a).
  { subst s1. destruct (unsubscribe s); [log_of s | apply added_refl]. }
  pose proof (cleanups_added (tableUnSubscribers s1) s1) as H2.
  set (s2 := fold_left _ _ _) in *.
  assert (H3 : log (set_tableUnSubscribers [] s2) = log s2)
    by (clearbody s2; clear; now open_state s2).
  rewrite H3. eapply added_trans; eassumption.
Qed.

(** What one input adds to the log. *)
Lemma step_added i s :
  exists added,
    log (step i s) = (log s ++ added)%list
    /\ Forall (caused_by i (query s)) added.
Proof.
  destruct i as [st0 | active | h cache | e |]; simpl.
  - destruct (Status_eqb st0 (status s)); [apply added_refl |].
    destruct (statusListener (set_status st0 s)).
    + replace (log s) with (log (set_status st0 s)) by now open_state s.
      replace (query s) with (query (set_status st0 s)) by now open_state s.
      apply handleStatusChange_added.
    + exists []. split; [open_state s; simpl; now rewrite app_nil_r |].
      constructor.
  - exists []. split; [open_state s; simpl; now rewrite app_nil_r |].
    constructor.
  - destruct (existsb _ _); [| apply added_refl].
    replace (log s) with (log (set_subscribeApplied true s))
      by now open_state s.
    apply updateSnapshot_added.
  - apply listeners_added.
  - apply destroy_added.
Qed.

(** What a sequence of inputs adds to the log. *)
Lemma run_added inputs : forall s,
  exists added,
    log (run inputs s) = (log s ++ added)%list
    /\ Forall (fun x => Exists (fun i => caused_by i (query s) x) inputs)
         added.
Proof.
  induction inputs as [| i inputs IH]; intros s; simpl.
  - exists []. split; [now rewrite app_nil_r | constructor].
  - destruct (step_added i s) as (a & Ha & HPa).
    destruct (IH (step i s)) as (b & Hb & HPb).
    destruct (step_config i s) as (_ & _ & _ & Hq & _).
    exists (a ++ b)%list. split.
    + change (run (i :: inputs) s) with (run inputs (step i s)) in *.
      rewrite Hb, Ha. now rewrite app_assoc.
    + apply Forall_app. split.
      * eapply List.Forall_impl; [| exact HPa].
        intros x Hx. now apply List.Exists_cons_hd.
      * eapply List.Forall_impl; [| exact HPb].
        intros x Hx. apply List.Exists_cons_tl. now rewrite <- Hq.
Qed.

End Causes.

(** X13.  Every call a view makes is caused by an input of the matching
    kind, and nothing is ever taken back from what was called.  A status
    change causes at most the subscribe call (with the view's own query
    text), the registration of table listeners and the deregistration of
    the status listener; a subscribe-applied callback or a row event
    causes only calls of the user's callbacks and publications of [rows];
    [destroy()] causes only deregistrations and the cancellation of the
    subscription; a change of the connection's activity causes nothing. *)
Theorem calls_are_caused_by_inputs :
  (forall (i : Input) (s : State),
      exists added,
        log (step i s) = (log s ++ added)%list
        /\ Forall (caused_by i (query s)) added) /\
  (forall (inputs : list Input) (s : State),
      exists added,
        log (run inputs s) = (log s ++ added)%list
        /\ Forall (fun x => Exists (fun i => caused_by i (query s) x) inputs)
             added).
Proof. split; [apply step_added | intros inputs s; apply run_added]. Qed.

(** ** Invariants of a view *)

Section ViewInvariants.

Implicit Types (s : State) (e : RawEvent) (c : Cleanup) (i : Input).

Ltac fields s :=
  open_state s;
  unfold same_config, same_wiring, same_data, same_connection;
  simpl; split_cases; repeat split; reflexivity.

Lemma construct_fresh f name pred cb st0 active hou :
  construct f name pred cb st0 active hou
  = (let s := handleStatusChange st0
                (set_statusListener true
                   (fresh f name pred cb st0 active hou)) in
     let s := set_unsubscribeStatus true s in
     set_tableUnSubscribers (tableUnSubscribers s ++ [UnsubscribeStatus]) s).
Proof. reflexivity. Qed.

Lemma same_data_refl s : same_data s s.
Proof. repeat split. Qed.

Lemma same_data_trans s1 s2 s3 :
  same_data s1 s2 -> same_data s2 s3 -> same_data s1 s3.
Proof.
  intros (A1 & A2 & A3 & A4) (B1 & B2 & B3 & B4). repeat split; congruence.
Qed.

Lemma same_connection_refl s : same_connection s s.
Proof. repeat split. Qed.

Lemma same_connection_trans s1 s2 s3 :
  same_connection s1 s2 -> same_connection s2 s3 -> same_connection s1 s3.
Proof.
  unfold same_connection. intros H1 H2.
  repeat match goal with H : _ /\ _ |- _ => destruct H end.
  repeat split; congruence.
Qed.

Lemma handleStatusChange_data st0 s : same_data s (handleStatusChange st0 s).
Proof.
  unfold handleStatusChange, setupSubscription, setupTableListeners,
    call_unsubscribeStatus.
  fields s.
Qed.

Lemma run_cleanup_data c s :
  same_data s (run_cleanup c s) /\ same_connection s (run_cleanup c s).
Proof.
  destruct c; unfold run_cleanup, call_unsubscribeStatus; split; fields s.
Qed.

Lemma cleanups_data (cs : list Cleanup) : forall s,
  same_data s (fold_left (fun s c => run_cleanup c s) cs s)
  /\ same_connection s (fold_left (fun s c => run_cleanup c s) cs s).
Proof.
  induction cs as [| c cs IH]; intros s; simpl.
  - split; [apply same_data_refl | apply same_connection_refl].
  - destruct (run_cleanup_data c s) as [A B].
    destruct (IH (run_cleanup c s)) as [A' B'].
    split; [eapply same_data_trans | eapply same_connection_trans];
      eassumption.
Qed.

Lemma destroy_data s :
  same_data s (destroy s) /\ same_connection s (destroy s).
Proof.
  unfold destroy.
  set (s1 := match unsubscribe s with Some h => _ | None => s end).
  assert (H1 : same_data s s1 /\ same_connection s s1).
  { subst s1. destruct (unsubscribe s) eqn:Hu.
    - split; [fields s |]. revert Hu. fields s.
    - split; [apply same_data_refl | apply same_connection_refl]. }
  destruct (cleanups_data (tableUnSubscribers s1) s1) as [A2 B2].
  set (s2 := fold_left _ _ _) in *.
  assert (H3 : same_data s2 (set_tableUnSubscribers [] s2)
               /\ same_connection s2 (set_tableUnSubscribers [] s2))
    by (clearbody s2; clear; split; fields s2).
  destruct H1 as [A1 B1]. destruct H3 as [A3 B3].
  split; [eauto using same_data_trans | eauto using same_connection_trans].
Qed.

(** *** The lifecycle phase *)


(** *** The published rows *)

Lemma rows_match_frame s s' :
  whereClause s' = whereClause s -> rows s' = rows s ->
  rows_match s -> rows_match s'.
Proof.
  unfold rows_match, passes. intros -> ->. exact id.
Qed.

Lemma updateSnapshot_rows_match cache s :
  rows_match (updateSnapshot cache s).
Proof.
  destruct (updateSnapshot_publishes cache s) as (Hw & _ & _ & _ & Hr).
  unfold rows_match, passes. rewrite Hw, Hr, computeSnapshot_passes.
  apply List.Forall_forall. intros row Hin.
  apply List.filter_In in Hin. apply Hin.
Qed.

Lemma call_onInsert_data row s : same_data s (call_onInsert row s).
Proof. unfold call_onInsert. fields s. Qed.

Lemma call_onDelete_data row s : same_data s (call_onDelete row s).
Proof. unfold call_onDelete. fields s. Qed.

Lemma call_onUpdate_data o n s : same_data s (call_onUpdate o n s).
Proof. unfold call_onUpdate. fields s. Qed.

Lemma refreshPerTransaction_rows_match event cache s :
  rows_match s -> rows_match (refreshPerTransaction event cache s).
Proof.
  intros H. unfold refreshPerTransaction.
  destruct (_ || _); [apply updateSnapshot_rows_match | exact H].
Qed.

Lemma deliver_rows_match e s : rows_match s -> rows_match (deliver e s).
Proof.
  intros H. destruct e as [ev row cache | ev row cache | ev o n cache]; simpl.
  - unfold onInsert. destruct (filteredOut row s); [exact H |].
    apply refreshPerTransaction_rows_match.
    eapply rows_match_frame; [| | exact H];
      [apply call_onInsert_frames | apply call_onInsert_data].
  - unfold onDelete. destruct (filteredOut row s); [exact H |].
    apply refreshPerTransaction_rows_match.
    eapply rows_match_frame; [| | exact H];
      [apply call_onDelete_frames | apply call_onDelete_data].
  - unfold onUpdate. destruct (classifyMembership (whereClause s) o n);
      try exact H; apply refreshPerTransaction_rows_match;
      (eapply rows_match_frame; [| | exact H]);
      first [apply call_onInsert_frames | apply call_onDelete_frames
            | apply call_onUpdate_frames | apply call_onInsert_data
            | apply call_onDelete_data | apply call_onUpdate_data].
Qed.

Lemma listeners_rows_match e (ls : list nat) : forall s,
  rows_match s -> rows_match (fold_left (fun s _ => deliver e s) ls s).
Proof.
  induction ls as [| l ls IH]; intros s H; simpl; [exact H |].
  apply IH, deliver_rows_match, H.
Qed.

Lemma step_rows_match i s : rows_match s -> rows_match (step i s).
Proof.
  intros H. destruct i as [st0 | active | h cache | e |]; simpl.
  - destruct (Status_eqb st0 (status s)); [exact H |].
    assert (H' : rows_match (set_status st0 s))
      by (revert H; unfold rows_match, passes; now open_state s).
    destruct (statusListener (set_status st0 s)); [| exact H'].
    eapply rows_match_frame; [| | exact H'];
      [apply handleStatusChange_config | apply handleStatusChange_data].
  - revert H. unfold rows_match, passes. now open_state s.
  - destruct (existsb _ _); [apply updateSnapshot_rows_match | exact H].
  - apply listeners_rows_match, H.
  - eapply rows_match_frame; [| | exact H];
      [apply destroy_config | apply destroy_data].
Qed.

Lemma run_rows_match inputs : forall s,
  rows_match s -> rows_match (run inputs s).
Proof.
  induction inputs as [| i inputs IH]; intros s H; simpl; [exact H |].
  apply IH, step_rows_match, H.
Qed.

Lemma construct_frames f name pred cb st0 active hou :
  same_config (fresh f name pred cb st0 active hou)
    (construct f name pred cb st0 active hou)
  /\ same_data (fresh f name pred cb st0 active hou)
       (construct f name pred cb st0 active hou).
Proof.
  rewrite construct_fresh.
  pose proof (handleStatusChange_config st0
                (set_statusListener true
                   (fresh f name pred cb st0 active hou))) as Hc.
  pose proof (handleStatusChange_data st0
                (set_statusListener true
                   (fresh f name pred cb st0 active hou))) as Hd.
  generalize dependent (handleStatusChange st0
                          (set_statusListener true
                             (fresh f name pred cb st0 active hou))).
  intros s1 Hc Hd. cbv zeta.
  assert (H2 : same_config s1
                 (set_tableUnSubscribers
                    (tableUnSubscribers (set_unsubscribeStatus true s1)
                       ++ [UnsubscribeStatus])
                    (set_unsubscribeStatus true s1))
               /\ same_data s1
                    (set_tableUnSubscribers
                       (tableUnSubscribers (set_unsubscribeStatus true s1)
                          ++ [UnsubscribeStatus])
                       (set_unsubscribeStatus true s1)))
    by (clear; split; fields s1).
  destruct H2 as [A B].
  split; [eapply same_config_trans; [exact Hc | exact A]
         | eapply same_data_trans; [exact Hd | exact B]].
Qed.

End ViewInvariants.

Section ViewTheorems.

Lemma subscribe_queries_app (l1 l2 : list Effect) :
  subscribe_queries (l1 ++ l2)
  = (subscribe_queries l1 ++ subscribe_queries l2)%list.
Proof. apply flat_map_app. Qed.

Lemma caused_subscribe_queries (q : string) (inputs : list Input)
    (added : list Effect) :
  Forall (fun x => Exists (fun i => caused_by i q x) inputs) added ->
  Forall (fun q' => q' = q) (subscribe_queries added).
Proof.
  induction 1 as [| x added Hx _ IH]; simpl; [constructor |].
  apply Forall_app. split; [| exact IH].
  destruct x; try constructor; [| constructor].
  apply List.Exists_exists in Hx. destruct Hx as (i & _ & Hc).
  destruct i; simpl in Hc; (exact Hc || discriminate Hc || contradiction).
Qed.

Lemma configuration_fixed_helper f name pred cb st0 active hou inputs :
  whereClause (run inputs (construct f name pred cb st0 active hou)) = pred.
Proof.
  destruct (construct_frames f name pred cb st0 active hou)
    as [(_ & C2 & _) _].
  destruct (run_config inputs (construct f name pred cb st0 active hou))
    as (_ & R2 & _).
  now rewrite R2, C2.
Qed.

End ViewTheorems.

(** X14.  What the constructor fixes stays fixed: after any sequence of
    status changes, callbacks, row events and [destroy()] calls the view
    still has the table name, predicate and callbacks it was constructed
    with, its query text is still [SELECT * FROM <table>] followed by
    [ WHERE <rendered predicate>] when there is a predicate, and every
    subscribe call it has issued carried exactly that text. *)
Theorem configuration_is_fixed_at_construction :
  forall f name pred cb st0 active upd inputs,
    tableName (run inputs (construct f name pred cb st0 active upd)) = name
    /\ whereClause (run inputs (construct f name pred cb st0 active upd))
       = pred
    /\ callbacks (run inputs (construct f name pred cb st0 active upd)) = cb
    /\ query (run inputs (construct f name pred cb st0 active upd))
       = "SELECT * FROM " +:+ name
         +:+ match pred with
             | Some w => " WHERE " +:+ toString f w
             | None => ""
             end
    /\ Forall (fun q =>
                 q = query (run inputs
                              (construct f name pred cb st0 active upd)))
         (subscribe_queries
            (log (run inputs (construct f name pred cb st0 active upd)))).
Proof.
  intros f name pred cb st0 active upd inputs.
  destruct (construct_frames f name pred cb st0 active upd)
    as [(C1 & C2 & C3 & C4 & _) _].
  destruct (run_config inputs (construct f name pred cb st0 active upd))
    as (R1 & R2 & R3 & R4 & _).
  rewrite R1, R2, R3, R4, C1, C2, C3, C4.
  repeat split.
  destruct (run_added inputs (construct f name pred cb st0 active upd))
    as (added & -> & Hadded).
  rewrite subscribe_queries_app. apply Forall_app. split.
  - rewrite construct_fresh. cbv zeta.
    destruct (handleStatusChange_added st0
                (set_statusListener true
                   (fresh f name pred cb st0 active upd)))
      as (a & Ha & HPa).
    match goal with
    | |- context [log ?s] =>
        replace (log s) with a
    end.
    + clear Ha. induction HPa as [| x a Hx _ IH]; simpl; [constructor |].
      apply Forall_app. split; [| exact IH].
      destruct x; simpl in Hx; try constructor; [| constructor].
      rewrite Hx. reflexivity.
    + generalize dependent (handleStatusChange st0
                              (set_statusListener true
                                 (fresh f name pred cb st0 active upd))).
      intros s1 Ha. open_state s1. simpl in *. now subst lg.
  - eapply caused_subscribe_queries. rewrite C4 in Hadded. exact Hadded.
Qed.



(** X16.  The published rows always belong to the view: whatever inputs a
    view has seen since its construction, every row of [rows] satisfies
    its predicate. *)
Theorem published_rows_satisfy_the_predicate :
  forall f name w cb st0 active upd inputs,
    Forall (fun row => evaluate w row = true)
      (rows (run inputs (construct f name (Some w) cb st0 active upd))).
Proof.
  intros f name w cb st0 active upd inputs.
  assert (H : rows_match
                (run inputs (construct f name (Some w) cb st0 active upd))).
  { apply run_rows_match.
    destruct (construct_frames f name (Some w) cb st0 active upd)
      as [(_ & Hw & _) (Hr & _)].
    unfold rows_match. rewrite Hr. constructor. }
  unfold rows_match, passes in H.
  now rewrite configuration_fixed_helper in H.
Qed.

(** ** Subscribing and the connection's activity *)

Section Activity.

Implicit Types (s : State) (i : Input).

Lemma run_app (xs ys : list Input) s : run (xs ++ ys) s = run ys (run xs s).
Proof. apply fold_left_app. Qed.

(** The status handler of an inactive connection: no subscribe call; and
    on ['connected'] the handler, holding its unsubscriber, is dropped all
    the same. *)
Lemma handleStatusChange_inactive st0 s :
  isActive s = false ->
  isActive (handleStatusChange st0 s) = false
  /\ subscribed (handleStatusChange st0 s) = subscribed s
  /\ unsubscribeStatus (handleStatusChange st0 s) = unsubscribeStatus s
  /\ status (handleStatusChange st0 s) = status s
  /\ (statusListener s = false ->
      statusListener (handleStatusChange st0 s) = false)
  /\ (st0 = connected -> unsubscribeStatus s = true ->
      statusListener (handleStatusChange st0 s) = false).
Proof.
  unfold handleStatusChange, setupSubscription, call_unsubscribeStatus,
    subscribed.
  open_state s. simpl. intros ->. simpl.
  destruct (Status_eqb st0 connected) eqn:E; simpl.
  - destruct ust; simpl; rewrite ?count_app; unfold count; simpl;
      repeat split; auto; try lia; intros; congruence.
  - repeat split; auto. intros ->. discriminate E.
Qed.

(** While the view has no status listener, nothing makes it subscribe. *)
Lemma step_unlistened i s :
  statusListener s = false -> no_subscribe s (step i s).
Proof.
  intros Hl. destruct i as [st0 | active | h cache | e |]; simpl.
  - destruct (Status_eqb st0 (status s)); [apply no_subscribe_refl |].
    replace (statusListener (set_status st0 s)) with false
      by (revert Hl; now open_state s).
    frame s.
  - frame s.
  - destruct (existsb _ _); [| apply no_subscribe_refl].
    eapply no_subscribe_trans; [| apply updateSnapshot_no_subscribe].
    frame s.
  - apply listeners_no_subscribe.
  - apply destroy_frame.
Qed.

Lemma run_unlistened inputs : forall s,
  statusListener s = false ->
  subscribed (run inputs s) = subscribed s.
Proof.
  induction inputs as [| i inputs IH]; intros s Hl; simpl; [reflexivity |].
  destruct (step_unlistened i s Hl) as (Hs & _ & Hl').
  rewrite IH by (apply Hl', Hl). exact Hs.
Qed.

(** The state of a view of an inactive connection that has not
    subscribed; its listener is gone once the status has been
    ['connected']. *)
Lemma step_inactive i s :
  activates i = false ->
  isActive s = false /\ subscribed s = 0 /\ unsubscribeStatus s = true
  /\ (status s = connected -> statusListener s = false) ->
  isActive (step i s) = false /\ subscribed (step i s) = 0
  /\ unsubscribeStatus (step i s) = true
  /\ (status (step i s) = connected -> statusListener (step i s) = false).
Proof.
  intros Hi (Ha & Hs & Hu & Hc).
  destruct i as [st1 | active | h cache | e |]; simpl.
  - destruct (Status_eqb st1 (status s)) eqn:E; [auto |].
    assert (Ha' : isActive (set_status st1 s) = false)
      by (revert Ha; now open_state s).
    assert (Hs' : subscribed (set_status st1 s) = 0)
      by (revert Hs; unfold subscribed; now open_state s).
    assert (Hu' : unsubscribeStatus (set_status st1 s) = true)
      by (revert Hu; now open_state s).
    assert (Hst : status (set_status st1 s) = st1) by now open_state s.
    destruct (statusListener (set_status st1 s)) eqn:El.
    + destruct (handleStatusChange_inactive st1 _ Ha')
        as (A & B & C & D & _ & F).
      rewrite A, B, C, D, Hs', Hu', Hst. repeat split.
      intros ->. now apply F.
    + repeat split; auto.
  - destruct active; [discriminate Hi |].
    revert Ha Hs Hu Hc. unfold subscribed. open_state s. simpl. auto.
  - destruct (existsb _ _); [| auto].
    destruct (updateSnapshot_frames cache (set_subscribeApplied true s))
      as (_ & W).
    destruct (updateSnapshot_no_subscribe cache
                (set_subscribeApplied true s)) as (N & _).
    unfold same_wiring in W.
    repeat match goal with H : _ /\ _ |- _ => destruct H end.
    repeat match goal with
           | H : _ (updateSnapshot _ _) = _ |- _ => rewrite H
           end.
    revert Ha Hs Hu Hc. unfold subscribed. open_state s. simpl. auto.
  - destruct (listeners_frames e (listenersFor e s) s) as (_ & W).
    destruct (listeners_no_subscribe e (listenersFor e s) s) as (N & _).
    unfold same_wiring in W.
    repeat match goal with H : _ /\ _ |- _ => destruct H end.
    repeat match goal with
           | H : _ (fold_left _ _ _) = _ |- _ => rewrite H
           end.
    auto.
  - destruct (destroy_frame s) as ((N & _ & L) & _).
    destruct (destroy_data s) as (_ & (A & B & _ & _ & C & _)).
    rewrite A, B, C, N. repeat split; auto.
Qed.

Lemma run_inactive inputs : forall s,
  Forall (fun i => activates i = false) inputs ->
  isActive s = false /\ subscribed s = 0 /\ unsubscribeStatus s = true
  /\ (status s = connected -> statusListener s = false) ->
  isActive (run inputs s) = false /\ subscribed (run inputs s) = 0
  /\ unsubscribeStatus (run inputs s) = true
  /\ (status (run inputs s) = connected ->
      statusListener (run inputs s) = false).
Proof.
  induction inputs as [| i inputs IH]; intros s Hall H; simpl; [exact H |].
  inversion Hall as [| i' inputs' Hi Hrest]; subst.
  apply IH; [exact Hrest | now apply step_inactive].
Qed.

Lemma handleStatusChange_status st0 s :
  status (handleStatusChange st0 s) = status s.
Proof.
  unfold handleStatusChange, setupSubscription, setupTableListeners,
    call_unsubscribeStatus.
  open_state s. simpl. split_cases; reflexivity.
Qed.

(** After [status.set(st1)] the store holds [st1]. *)
Lemma step_StatusSet_status st1 s : status (step (StatusSet st1) s) = st1.
Proof.
  simpl. destruct (Status_eqb st1 (status s)) eqn:E.
  - destruct st1, (status s); (reflexivity || discriminate E).
  - destruct (statusListener (set_status st1 s));
      rewrite ?handleStatusChange_status; now open_state s.
Qed.

Lemma construct_inactive f name pred cb st0 upd :
  isActive (construct f name pred cb st0 false upd) = false
  /\ subscribed (construct f name pred cb st0 false upd) = 0
  /\ unsubscribeStatus (construct f name pred cb st0 false upd) = true
  /\ status (construct f name pred cb st0 false upd) = st0.
Proof. destruct st0; repeat split. Qed.

End Activity.

(** X17.  The subscribe call is never issued while the connection is not
    active: a view constructed on an inactive connection has issued no
    subscribe call as long as the connection has not become active,
    whatever the status store does. *)
Theorem never_subscribes_before_the_connection_is_active :
  forall f name pred cb st0 upd inputs,
    Forall (fun i => activates i = false) inputs ->
    subscribed (run inputs (construct f name pred cb st0 false upd)) = 0.
Proof.
  intros f name pred cb st0 upd inputs Hall.
  destruct (construct_inactive f name pred cb st0 upd) as (A & B & C & D).
  clear C D. revert A B. generalize (construct f name pred cb st0 false upd).
  induction inputs as [| i inputs IH]; intros s A B; simpl; [exact B |].
  inversion Hall as [| i' inputs' Hi Hrest]; subst.
  apply IH; [exact Hrest | |].
  - destruct i as [st1 | active | h cache | e |]; simpl.
    + destruct (Status_eqb st1 (status s)); [exact A |].
      assert (Ha' : isActive (set_status st1 s) = false)
        by (revert A; now open_state s).
      destruct (statusListener (set_status st1 s)); [| exact Ha'].
      now apply handleStatusChange_inactive.
    + destruct active; [discriminate Hi | now open_state s].
    + destruct (existsb _ _); [| exact A].
      destruct (updateSnapshot_frames cache (set_subscribeApplied true s))
        as (_ & (_ & _ & _ & _ & _ & _ & -> & _)).
      revert A. now open_state s.
    + now destruct (listeners_frames e (listenersFor e s) s)
        as (_ & (_ & _ & _ & _ & _ & _ & -> & _)).
    + now destruct (destroy_data s) as (_ & (-> & _)).
  - destruct i as [st1 | active | h cache | e |]; simpl.
    + destruct (Status_eqb st1 (status s)); [exact B |].
      assert (Ha' : isActive (set_status st1 s) = false)
        by (revert A; now open_state s).
      assert (Hs' : subscribed (set_status st1 s) = 0)
        by (revert B; unfold subscribed; now open_state s).
      destruct (statusListener (set_status st1 s)); [| exact Hs'].
      destruct (handleStatusChange_inactive st1 _ Ha') as (_ & -> & _).
      exact Hs'.
    + revert B. unfold subscribed. now open_state s.
    + destruct (existsb _ _); [| exact B].
      destruct (updateSnapshot_no_subscribe cache
                  (set_subscribeApplied true s)) as (-> & _).
      revert B. unfold subscribed. now open_state s.
    + now destruct (listeners_no_subscribe e (listenersFor e s) s)
        as (-> & _).
    + now destruct (destroy_frame s) as ((-> & _) & _).
Qed.

(** X17 at a view on an inactive connection whose status goes up, down
    and up again. *)
Lemma never_subscribes_before_the_connection_is_active_witness :
  subscribed
    (run (StatusSet connected :: Examples.reconnect)
       (construct Examples.no_number_rendered "User" None
          Examples.all_callbacks disconnected false true)) = 0.
Proof.
  apply never_subscribes_before_the_connection_is_active.
  repeat constructor.
Defined.

(** X18.  A missed activation is never made up for.  When a view
    constructed before the status was ['connected'] sees the status become
    ['connected'] while the connection is still inactive, it drops its
    status listener without subscribing, and from then on it never issues
    the subscribe call, also when the connection becomes active and the
    status reconnects. *)
Theorem missed_activation_is_never_retried :
  forall f name pred cb st0 upd before later,
    st0 <> connected ->
    Forall (fun i => activates i = false) before ->
    subscribed
      (run (before ++ StatusSet connected :: later)
         (construct f name pred cb st0 false upd)) = 0.
Proof.
  intros f name pred cb st0 upd before later Hst Hall.
  destruct (construct_inactive f name pred cb st0 upd) as (A & B & C & D).
  rewrite run_app.
  destruct (run_inactive before (construct f name pred cb st0 false upd) Hall)
    as (A1 & B1 & C1 & D1).
  { repeat split; auto. rewrite D. intros ->. congruence. }
  change (run (StatusSet connected :: later) ?s)
    with (run later (step (StatusSet connected) s)).
  destruct (step_inactive (StatusSet connected) _ Logic.eq_refl
              (conj A1 (conj B1 (conj C1 D1)))) as (_ & B2 & _ & D2).
  rewrite run_unlistened; [exact B2 |].
  apply D2, step_StatusSet_status.
Qed.

(** X18 at a view built disconnected on an inactive connection: the
    status comes up, then the connection becomes active and the status
    reconnects. *)
Lemma missed_activation_is_never_retried_witness :
  subscribed
    (run ([] ++ StatusSet connected
            :: ConnectionActive true :: Examples.reconnect)
       (construct Examples.no_number_rendered "User" None
          Examples.all_callbacks disconnected false true)) = 0.
Proof.
  apply missed_activation_is_never_retried; [discriminate | constructor].
Defined.

(** ** Disposal *)

Section Unhooking.

Implicit Types (s : State) (e : RawEvent) (c : Cleanup) (i : Input).

Lemma In_without (x y : nat) (xs : list nat) :
  In x (without y xs) <-> In x xs /\ x <> y.
Proof.
  unfold without. rewrite List.filter_In, Bool.negb_true_iff, Nat.eqb_neq.
  tauto.
Qed.

Lemma nil_when_no_member {A} (l : list A) : (forall x, In x l -> False) -> l = [].
Proof. destruct l as [| a l]; [reflexivity |]. intros H. destruct (H a). now left. Qed.

(** Running cleanups that cover every registration leaves none. *)
Lemma cleanups_unhook (cs : list Cleanup) : forall s,
  (statusListener s = true -> In UnsubscribeStatus cs) ->
  (forall l, In l (insertListeners s) -> In (RemoveOnInsert l) cs) ->
  (forall l, In l (deleteListeners s) -> In (RemoveOnDelete l) cs) ->
  (forall l, In l (updateListeners s) ->
             In (RemoveOnUpdate l) cs /\ tableHasOnUpdate s = true) ->
  statusListener (fold_left (fun s c => run_cleanup c s) cs s) = false
  /\ insertListeners (fold_left (fun s c => run_cleanup c s) cs s) = []
  /\ deleteListeners (fold_left (fun s c => run_cleanup c s) cs s) = []
  /\ updateListeners (fold_left (fun s c => run_cleanup c s) cs s) = [].
Proof.
  induction cs as [| c cs IH]; intros s Hs Hi Hd Hu; simpl.
  - repeat split.
    + destruct (statusListener s); [destruct (Hs Logic.eq_refl) | reflexivity].
    + apply nil_when_no_member. exact Hi.
    + apply nil_when_no_member. exact Hd.
    + apply nil_when_no_member. intros l Hl. now destruct (Hu l Hl).
  - apply IH; clear IH; destruct c as [| l0 | l0 | l0];
      unfold run_cleanup, call_unsubscribeStatus;
      revert Hs Hi Hd Hu; open_state s; simpl; intros Hs Hi Hd Hu;
      try destruct hou; simpl;
      try (intros H; specialize (Hs H); destruct Hs as [Hs | Hs];
           [discriminate Hs | exact Hs]);
      try discriminate;
      try (intros l Hl;
           try (apply In_without in Hl; destruct Hl as [Hl Hne]);
           first
             [ destruct (Hi l Hl) as [Heq | Hin];
               [ (discriminate Heq || (inversion Heq; congruence)) | exact Hin ]
             | destruct (Hd l Hl) as [Heq | Hin];
               [ (discriminate Heq || (inversion Heq; congruence)) | exact Hin ]
             | destruct (Hu l Hl) as [[Heq | Hin] Hh];
               [ (discriminate Heq || discriminate Hh
                  || (inversion Heq; congruence))
               | split; [exact Hin | exact Hh] ] ]).
Qed.

(** [destroy()] on a view whose registrations are all covered leaves
    nothing registered. *)
Lemma destroy_unhooks s : wired s -> unhooked (destroy s).
Proof.
  intros (_ & Hs & Hi & Hd & Hu). unfold destroy.
  set (s1 := match unsubscribe s with Some h => _ | None => s end).
  assert (H1 : same_config s s1
               /\ statusListener s1 = statusListener s
               /\ tableUnSubscribers s1 = tableUnSubscribers s
               /\ insertListeners s1 = insertListeners s
               /\ deleteListeners s1 = deleteListeners s
               /\ updateListeners s1 = updateListeners s).
  { subst s1. destruct (unsubscribe s); [| repeat split].
    clear. open_state s. repeat split. }
  destruct H1 as ((_ & _ & _ & _ & Hh) & E1 & E2 & E3 & E4 & E5).
  assert (H2 : statusListener
                 (fold_left (fun s c => run_cleanup c s)
                    (tableUnSubscribers s1) s1) = false
               /\ insertListeners
                    (fold_left (fun s c => run_cleanup c s)
                       (tableUnSubscribers s1) s1) = []
               /\ deleteListeners
                    (fold_left (fun s c => run_cleanup c s)
                       (tableUnSubscribers s1) s1) = []
               /\ updateListeners
                    (fold_left (fun s c => run_cleanup c s)
                       (tableUnSubscribers s1) s1) = []).
  { apply cleanups_unhook.
    - rewrite E1, E2. exact Hs.
    - rewrite E3, E2. exact Hi.
    - rewrite E4, E2. exact Hd.
    - rewrite E5, E2, Hh. exact Hu. }
  destruct H2 as (A & B & C & D).
  set (s2 := fold_left _ _ _) in *. clearbody s2.
  revert A B C D. clear. unfold unhooked. open_state s2. simpl.
  intros -> -> -> ->. repeat split.
Qed.

Lemma wired_frame s s' :
  same_config s s' -> same_wiring s s' -> wired s -> wired s'.
Proof.
  intros (_ & _ & _ & _ & Hh) W. unfold same_wiring in W.
  repeat match goal with H : _ /\ _ |- _ => destruct H end.
  unfold wired.
  repeat match goal with H : _ s' = _ |- _ => rewrite H end.
  exact id.
Qed.

Lemma unhooked_wired s : unsubscribeStatus s = true -> unhooked s -> wired s.
Proof.
  intros Hu (A & B & C & D & E). unfold wired. rewrite A, B, C, D, E.
  repeat split; simpl; (discriminate || contradiction || auto).
Qed.

Lemma In_kept (x : Cleanup) (xs : list Cleanup) :
  is_UnsubscribeStatus x = false -> In x xs ->
  In x (List.filter (fun fn => negb (is_UnsubscribeStatus fn)) xs).
Proof. intros Hx Hin. apply List.filter_In. now rewrite Hx. Qed.

Lemma handleStatusChange_wired st0 s :
  wired s -> wired (handleStatusChange st0 s).
Proof.
  unfold wired, handleStatusChange, setupSubscription, setupTableListeners,
    call_unsubscribeStatus.
  open_state s. simpl. intros (-> & Hs & Hi & Hd & Hu).
  destruct (Status_eqb st0 connected); simpl;
    [| repeat split; auto;
       match goal with Hl : In ?l ul |- _ => apply (Hu l Hl) end].
  destruct act; simpl; [destruct hou; simpl |];
    (split; [reflexivity |]); (split; [discriminate |]);
    (split; [| split]); intros l0 Hl0.
  - apply In_kept; [reflexivity |]. apply in_app_iff.
    apply in_app_iff in Hl0. destruct Hl0 as [Hl0 | [<- | []]];
      [left; now apply Hi | right; simpl; auto].
  - apply In_kept; [reflexivity |]. apply in_app_iff.
    apply in_app_iff in Hl0. destruct Hl0 as [Hl0 | [<- | []]];
      [left; now apply Hd | right; simpl; auto].
  - split; [| reflexivity]. apply In_kept; [reflexivity |]. apply in_app_iff.
    apply in_app_iff in Hl0. destruct Hl0 as [Hl0 | [<- | []]];
      [left; now apply Hu | right; simpl; auto].
  - apply In_kept; [reflexivity |]. apply in_app_iff.
    apply in_app_iff in Hl0. destruct Hl0 as [Hl0 | [<- | []]];
      [left; now apply Hi | right; simpl; auto].
  - apply In_kept; [reflexivity |]. apply in_app_iff.
    apply in_app_iff in Hl0. destruct Hl0 as [Hl0 | [<- | []]];
      [left; now apply Hd | right; simpl; auto].
  - destruct (Hu l0 Hl0) as [_ Hh]. discriminate Hh.
  - apply In_kept; [reflexivity |]. now apply Hi.
  - apply In_kept; [reflexivity |]. now apply Hd.
  - destruct (Hu l0 Hl0) as [Hin Hh]. split; [| exact Hh].
    apply In_kept; [reflexivity | exact Hin].
Qed.

Lemma step_wired i s : wired s -> wired (step i s).
Proof.
  intros H. destruct i as [st0 | active | h cache | e |]; simpl.
  - destruct (Status_eqb st0 (status s)); [exact H |].
    assert (H' : wired (set_status st0 s))
      by (revert H; unfold wired; now open_state s).
    destruct (statusListener (set_status st0 s)); [| exact H'].
    now apply handleStatusChange_wired.
  - revert H. unfold wired. now open_state s.
  - destruct (existsb _ _); [| exact H].
    destruct (updateSnapshot_frames cache (set_subscribeApplied true s))
      as (C & W).
    eapply wired_frame; [exact C | exact W |].
    revert H. unfold wired. now open_state s.
  - destruct (listeners_frames e (listenersFor e s) s) as (C & W).
    eapply wired_frame; eassumption.
  - apply unhooked_wired; [| now apply destroy_unhooks].
    destruct (destroy_data s) as (_ & (_ & _ & _ & _ & -> & _)).
    apply H.
Qed.

Lemma run_wired inputs : forall s, wired s -> wired (run inputs s).
Proof.
  induction inputs as [| i inputs IH]; intros s H; simpl; [exact H |].
  apply IH, step_wired, H.
Qed.

Lemma construct_wired f name pred cb st0 active upd :
  wired (construct f name pred cb st0 active upd).
Proof.
  unfold wired.
  destruct st0, active, upd; simpl;
    (split; [reflexivity |]); (split; [intros _; auto 10 |]);
    (split; [| split]); intros l0 Hl0; simpl in *;
    intuition (subst; auto 10).
Qed.

Lemma cleanups_live (cs : list Cleanup) : forall s,
  liveSubscriptions (fold_left (fun s c => run_cleanup c s) cs s)
  = liveSubscriptions s.
Proof.
  induction cs as [| c cs IH]; intros s; simpl; [reflexivity |].
  rewrite IH. destruct c; unfold run_cleanup, call_unsubscribeStatus;
    open_state s; simpl; split_cases; reflexivity.
Qed.

Lemma destroy_live s :
  liveSubscriptions (destroy s)
  = match unsubscribe s with
    | Some h => without h (liveSubscriptions s)
    | None => liveSubscriptions s
    end.
Proof.
  unfold destroy.
  set (s1 := match unsubscribe s with Some h => _ | None => s end).
  pose proof (cleanups_live (tableUnSubscribers s1) s1) as H.
  set (s2 := fold_left _ _ _) in *.
  replace (liveSubscriptions (set_tableUnSubscribers [] s2))
    with (liveSubscriptions s2) by (clearbody s2; clear; now open_state s2).
  rewrite H. subst s1. destruct (unsubscribe s); now open_state s.
Qed.

Lemma user_log_unchanged (l added : list Effect) :
  Forall (fun x => is_teardown_effect x = true) added ->
  List.filter is_user_effect (l ++ added) = List.filter is_user_effect l.
Proof.
  intros H. rewrite List.filter_app.
  replace (List.filter is_user_effect added) with (@nil Effect);
    [now rewrite app_nil_r |].
  induction H as [| x added Hx _ IH]; simpl; [reflexivity |].
  destruct x; simpl in *; (discriminate Hx || exact IH).
Qed.

(** A view with nothing registered ignores status changes and row
    events, and a further [destroy()] reaches no user callback. *)
Lemma step_unhooked i s :
  unhooked s -> unsubscribeStatus s = true ->
  unhooked (step i s) /\ unsubscribeStatus (step i s) = true
  /\ liveSubscriptions (step i s)
     = match i, unsubscribe s with
       | Destroy, Some h => without h (liveSubscriptions s)
       | _, _ => liveSubscriptions s
       end
  /\ unsubscribe (step i s) = unsubscribe s
  /\ (is_Applied i = false \/ liveSubscriptions s = [] ->
      List.filter is_user_effect (log (step i s))
      = List.filter is_user_effect (log s)).
Proof.
  intros Hun Hu. pose proof Hun as (A & B & C & D & E).
  destruct i as [st0 | active | h cache | e |]; simpl.
  - destruct (Status_eqb st0 (status s)); [repeat split; auto |].
    replace (statusListener (set_status st0 s)) with false
      by (revert A; now open_state s).
    revert Hun Hu. unfold unhooked. open_state s. simpl.
    intros; repeat split; tauto.
  - revert Hun Hu. unfold unhooked. open_state s. simpl.
    intros; repeat split; tauto.
  - destruct (statusListener s) eqn:F; [discriminate A |].
    destruct (existsb (Nat.eqb h) (liveSubscriptions s)) eqn:Ex.
    + destruct (updateSnapshot_frames cache (set_subscribeApplied true s))
        as (_ & W).
      unfold same_wiring in W.
      repeat match goal with H : _ /\ _ |- _ => destruct H end.
      unfold unhooked.
      repeat match goal with
             | H : _ (updateSnapshot _ _) = _ |- _ => rewrite H
             end.
      split; [revert Hun; unfold unhooked; now open_state s |].
      split; [revert Hu; now open_state s |].
      split; [now open_state s |].
      split; [now open_state s |].
      intros [Hf | Hnil]; [discriminate Hf |].
      rewrite Hnil in Ex. discriminate Ex.
    + repeat split; auto.
  - replace (listenersFor e s) with (@nil nat)
      by (destruct e; simpl; congruence).
    simpl. repeat split; auto.
  - assert (Hw : wired s) by now apply unhooked_wired.
    split; [now apply destroy_unhooks |].
    destruct (destroy_data s) as (_ & (_ & _ & _ & Hus & Hust & _)).
    split; [now rewrite Hust |].
    split; [apply destroy_live |].
    split; [exact Hus |]. intros _.
    destruct (destroy_added s) as (added & -> & Hadded).
    now apply user_log_unchanged.
Qed.

End Unhooking.

Section AfterDestroy.

Implicit Types (s : State) (i : Input).

Lemma run_unhooked later : forall s,
  unhooked s -> unsubscribeStatus s = true ->
  Forall (fun i => is_Applied i = false) later
  \/ liveSubscriptions s = [] ->
  List.filter is_user_effect (log (run later s))
  = List.filter is_user_effect (log s).
Proof.
  induction later as [| i later IH]; intros s Hun Hu Hq; simpl;
    [reflexivity |].
  destruct (step_unhooked i s Hun Hu) as (Hun' & Hu' & Hl & _ & Hlog).
  rewrite IH; try assumption.
  - apply Hlog. destruct Hq as [Hq | Hq]; [| now right].
    left. now inversion Hq.
  - destruct Hq as [Hq | Hq]; [left; now inversion Hq | right].
    rewrite Hl, Hq. now destruct i, (unsubscribe s).
Qed.







Lemma destroyed_view f name pred cb st0 active upd before :
  unhooked (destroy (run before (construct f name pred cb st0 active upd)))
  /\ unsubscribeStatus
       (destroy (run before (construct f name pred cb st0 active upd)))
     = true.
Proof.
  pose proof (run_wired before _
                (construct_wired f name pred cb st0 active upd)) as Hw.
  split; [now apply destroy_unhooks |].
  destruct (destroy_data
              (run before (construct f name pred cb st0 active upd)))
    as (_ & (_ & _ & _ & _ & -> & _)).
  apply Hw.
Qed.

End AfterDestroy.

(** X19.  After [destroy()] a view no longer hears the table or the
    status store: whatever it went through before, no later row event,
    status change, change of the connection's activity or further
    [destroy()] calls a user callback or republishes [rows]. *)
Theorem destroyed_view_ignores_rows_and_status :
  forall f name pred cb st0 active upd before later,
    Forall (fun i => is_Applied i = false) later ->
    List.filter is_user_effect
      (log (run later
              (destroy (run before
                          (construct f name pred cb st0 active upd)))))
    = List.filter is_user_effect
        (log (destroy (run before
                         (construct f name pred cb st0 active upd)))).
Proof.
  intros f name pred cb st0 active upd before later Hq.
  destruct (destroyed_view f name pred cb st0 active upd before) as [A B].
  apply run_unhooked; auto.
Qed.

(** X19 at a view constructed connected that received a row, was
    destroyed, and is then sent another row and a reconnect. *)
Lemma destroyed_view_ignores_rows_and_status_witness :
  List.filter is_user_effect
    (log (run (TableEvent (RawInsert Examples.tx1 Examples.bob
                             [Examples.alice; Examples.bob])
               :: Examples.reconnect)
            (destroy (run [Examples.early_insert]
                        Examples.view_built_connected))))
  = [UserOnInsert Examples.alice; RowsPublished [Examples.alice];
     UserOnInitialSnapshot [Examples.alice]].
Proof.
  rewrite (destroyed_view_ignores_rows_and_status
             Examples.no_number_rendered "User" None Examples.all_callbacks
             connected true true [Examples.early_insert]).
  - reflexivity.
  - repeat constructor.
Defined.


